(** * Balance rig: PID step, slew limiter, experiment sequencing and sampling

    Shallow embedding of the two sketches of the repository:

    - [Standalone]: [src/PracticeV2.ino], the serial-only sketch
      (countdown, calibration, slew to base, PID balance);
    - [Rig]: [src/PracticeV2/PracticeV2.ino], the experiment sketch with the
      web handlers, the 20 s run and the sampling buffer.

    Integers are [Z] with the wrap-around of their C type written out,
    [float] is IEEE-754 binary32 on top of [SpecFloat], the clock and the
    ADC are inputs of the functions that read them. *)

From Stdlib Require Import ZArith Lia Bool List String Sorting.Sorted.
From Stdlib Require Import Floats.SpecFloat.
From stdpp Require Import base list.
Import ListNotations.

Local Open Scope Z_scope.

(** ** Machine integers *)

Module Mach.

(** [uint32_t], [uint16_t]: arithmetic modulo a power of two. *)
Definition u32 (z : Z) : Z := z mod 2 ^ 32.
Definition u16 (z : Z) : Z := z mod 2 ^ 16.

(** [int] and [int32_t] (32 bits on this target), [int16_t]: two's
    complement wrap-around. *)
Definition i32 (z : Z) : Z := (z + 2 ^ 31) mod 2 ^ 32 - 2 ^ 31.
Definition i16 (z : Z) : Z := (z + 2 ^ 15) mod 2 ^ 16 - 2 ^ 15.

Definition INT_MAX : Z := 2 ^ 31 - 1.
Definition INT_MIN : Z := - 2 ^ 31.

(** [int ClampInt(int v, int lo, int hi)]. *)
Definition ClampInt (v lo hi : Z) : Z :=
  if v <? lo then lo else if v >? hi then hi else v.

End Mach.

(** ** binary32 *)

Module F32.

Definition prec : Z := 24.
Definition emax : Z := 128.

Abbreviation float := spec_float.

Definition fadd : float -> float -> float := SFadd prec emax.
Definition fsub : float -> float -> float := SFsub prec emax.
Definition fmul : float -> float -> float := SFmul prec emax.
Definition fdiv : float -> float -> float := SFdiv prec emax.
Definition fneg : float -> float := SFopp.
Definition fabs : float -> float := SFabs.

(** C comparisons: every one of them is false on NaN. *)
Definition flt (a b : float) : bool := SFltb a b.
Definition fgt (a b : float) : bool := SFltb b a.
Definition fle (a b : float) : bool := SFleb a b.

Definition is_nan (f : float) : bool :=
  match f with S754_nan => true | _ => false end.

Definition is_finite (f : float) : bool :=
  match f with S754_zero _ | S754_finite _ _ _ => true | _ => false end.

(** The mantissa of a finite value fits the 24 bits of the format. *)
Definition wf32 (f : float) : bool :=
  match f with
  | S754_finite _ m _ => Zpos (digits2_pos m) <=? prec
  | _ => true
  end.

(** Integer to [float] conversion, round to nearest even. *)
Definition of_int (z : Z) : float := binary_normalize prec emax z 0 false.

(** Magnitude of a finite float with the fraction dropped. *)
Definition trunc_mag (m : positive) (e : Z) : Z := Z.shiftl (Zpos m) e.

(** [(int)f]: truncation toward zero.  Out of range and NaN are undefined
    in C; the target's soft-float routine saturates and sends NaN to
    [INT_MAX], which is what is written here. *)
Definition to_int (f : float) : Z :=
  match f with
  | S754_zero _ => 0
  | S754_nan => Mach.INT_MAX
  | S754_infinity s => if s then Mach.INT_MIN else Mach.INT_MAX
  | S754_finite s m e =>
      let a := trunc_mag m e in
      if s then Z.max Mach.INT_MIN (- a) else Z.min Mach.INT_MAX a
  end.

(** [roundf]: nearest integer, halves away from zero. *)
Definition roundf (f : float) : float :=
  match f with
  | S754_finite s m (Zneg p) =>
      let q := Z.shiftr (Zpos m) (Zpos p) in
      let r := Zpos m - Z.shiftl q (Zpos p) in
      let q' := if 2 * r >=? 2 ^ Zpos p then q + 1 else q in
      if q' =? 0 then S754_zero s
      else binary_normalize prec emax (if s then - q' else q') 0 false
  | _ => f
  end.

(** Literals of the sketches. *)
Definition f0 : float := S754_zero false.
Definition f1 : float := Eval vm_compute in of_int 1.
Definition f2 : float := Eval vm_compute in of_int 2.
Definition f5 : float := Eval vm_compute in of_int 5.
Definition f1000 : float := Eval vm_compute in of_int 1000.
Definition f0_25 : float := Eval vm_compute in fdiv (of_int 1) (of_int 4).
Definition f0_20 : float := Eval vm_compute in fdiv (of_int 1) (of_int 5).
Definition f0_10 : float := Eval vm_compute in fdiv (of_int 1) (of_int 10).
Definition f0_001 : float := Eval vm_compute in fdiv (of_int 1) (of_int 1000).

(** Arduino's [constrain(amt,low,high)] macro:
    [((amt)<(low)?(low):((amt)>(high)?(high):(amt)))]. *)
Definition constrain (amt low high : float) : float :=
  if flt amt low then low else if fgt amt high then high else amt.

(** The clamp both sketches apply to the integral and to the output:
    [if (x > lim) x = lim; if (x < -lim) x = -lim;] with [lim] an [int]. *)
Definition clamp_sym (x : float) (lim : Z) : float :=
  let x1 := if fgt x (of_int lim) then of_int lim else x in
  if flt x1 (of_int (Mach.i32 (- lim))) then of_int (Mach.i32 (- lim)) else x1.

(** [|x| <= lim], as the comparison of the format decides it: false on
    NaN. *)
Definition abs_le (x : float) (lim : Z) : bool := fle (fabs x) (of_int lim).

End F32.

Import Mach F32.

(** ** The two ESC channels and the slew limiter

    The pulse constants, the command pair and [SlewBothTo] read the same in
    both sketches. *)

Module Drive.

Definition PulseMinUs : Z := 1100.
Definition PulseMaxUs : Z := 1500.
Definition BaseUs : Z := 1250.
Definition DeltaMaxUs : Z := 120.
Definition SlewStepUs : Z := 4.

(** The two commands, and the pulses written to the ESCs so far (newest
    first): one pair per [writeMicroseconds] on both channels. *)
Record Esc := {
  CmdUs1 : Z;
  CmdUs2 : Z;
  EscOut : list (Z * Z)
}.

(** [Esc1.writeMicroseconds(a); Esc2.writeMicroseconds(b);] *)
Definition write_escs (a b : Z) (e : Esc) : Esc :=
  {| CmdUs1 := CmdUs1 e; CmdUs2 := CmdUs2 e; EscOut := (a, b) :: EscOut e |}.

Definition set_cmds (c1 c2 : Z) (e : Esc) : Esc :=
  {| CmdUs1 := c1; CmdUs2 := c2; EscOut := EscOut e |}.

(** [HoldEscMin]: both commands to MIN, then written out. *)
Definition HoldEscMin_esc (e : Esc) : Esc :=
  write_escs PulseMinUs PulseMinUs (set_cmds PulseMinUs PulseMinUs e).

(** One move of a command toward its target:
    [ClampInt(target-Cmd,-SlewStepUs,SlewStepUs)] added to [Cmd]. *)
Definition slew_toward (target cmd : Z) : Z :=
  i32 (cmd + ClampInt (i32 (target - cmd)) (- SlewStepUs) SlewStepUs).

(** One iteration of the [while(!done)] loop of [SlewBothTo]: the moved
    commands, written out, and the value of [done] at the end of the body.
    In the experiment sketch the body also calls [ServiceWeb()] while no
    run is on; that call is reached from inside a handler and is taken to
    dispatch no request. *)
Definition slew_iter (t1 t2 : Z) (e : Esc) : Esc * bool :=
  let c1 := if CmdUs1 e =? t1 then CmdUs1 e else slew_toward t1 (CmdUs1 e) in
  let c2 := if CmdUs2 e =? t2 then CmdUs2 e else slew_toward t2 (CmdUs2 e) in
  (write_escs c1 c2 (set_cmds c1 c2 e), (CmdUs1 e =? t1) && (CmdUs2 e =? t2)).

Fixpoint slew_loop (fuel : nat) (t1 t2 : Z) (e : Esc) : Esc :=
  match fuel with
  | O => e
  | S fuel' =>
      let '(e', done) := slew_iter t1 t2 e in
      if done then e' else slew_loop fuel' t1 t2 e'
  end.

(** The variant of the loop: the distance left on both channels, plus the
    last iteration that only finds [done]. *)
Definition slew_fuel (t1 t2 : Z) (e : Esc) : nat :=
  S (Z.to_nat (Z.abs (t1 - CmdUs1 e) + Z.abs (t2 - CmdUs2 e))).

Definition SlewBothTo_esc (target1 target2 : Z) (e : Esc) : Esc :=
  let t1 := ClampInt target1 PulseMinUs PulseMaxUs in
  let t2 := ClampInt target2 PulseMinUs PulseMaxUs in
  slew_loop (slew_fuel t1 t2 e) t1 t2 e.

End Drive.

Import Drive.

(** ** The experiment sketch, [src/PracticeV2/PracticeV2.ino] *)

Module Rig.

(** *** Constants and never-written globals *)

Definition PotCenter : Z := 660.
Definition PotMinSafe : Z := 300.
Definition PotMaxSafe : Z := 900.
Definition PotAlpha : float := f0_20.
Definition DAlpha : float := f0_20.

Definition LoopDtMs : Z := 10.
Definition IntegralMaxUs : Z := 80.
Definition ExperimentDurationMs : Z := 20000.
Definition SamplePeriodMs : Z := 50.
Definition MaxSamples : Z := 500.

(** *** Globals written at run time, grouped as the sketch groups them *)

(** Gains and direction, written by [HandleSet]. *)
Record Tuning := {
  KpUsPerCount : float;
  KiUsPerCountSec : float;
  KdUsPerCountPerSec : float;
  InvertDirection : bool
}.

(** The "PID" block, with the function-static [lastY] of
    [ControlStepPID]. *)
Record Pid := {
  IntUs : float;
  DerivFilt : float;
  PotFiltered : Z;
  LastTsMs : Z;
  lastY : Z
}.

Record Experiment := {
  ExperimentRunning : bool;
  ExperimentEndMs : Z;
  ExperimentStartMs : Z;
  NextSampleAtMs : Z;
  SamplesReady : bool
}.

(** The sampling buffer: [SampleCount] and the seven arrays of
    [MaxSamples] cells. *)
Record Samples := {
  SampleCount : Z;
  Tms : list Z;
  AdcRaw : list Z;
  AdcErr : list Z;
  AdcFilt : list Z;
  PUs : list Z;
  IUs : list Z;
  DUs : list Z
}.

Record state := {
  tuning : Tuning;
  pid : Pid;
  esc : Esc;
  experiment : Experiment;
  samples : Samples
}.

Definition with_tuning (t : Tuning) (s : state) : state :=
  {| tuning := t; pid := pid s; esc := esc s;
     experiment := experiment s; samples := samples s |}.
Definition with_pid (p : Pid) (s : state) : state :=
  {| tuning := tuning s; pid := p; esc := esc s;
     experiment := experiment s; samples := samples s |}.
Definition with_esc (e : Esc) (s : state) : state :=
  {| tuning := tuning s; pid := pid s; esc := e;
     experiment := experiment s; samples := samples s |}.
Definition with_experiment (x : Experiment) (s : state) : state :=
  {| tuning := tuning s; pid := pid s; esc := esc s;
     experiment := x; samples := samples s |}.
Definition with_samples (b : Samples) (s : state) : state :=
  {| tuning := tuning s; pid := pid s; esc := esc s;
     experiment := experiment s; samples := b |}.

(** *** ESC helpers *)

Definition HoldEscMin (s : state) : state := with_esc (HoldEscMin_esc (esc s)) s.

Definition SlewBothTo (target1 target2 : Z) (s : state) : state :=
  with_esc (SlewBothTo_esc target1 target2 (esc s)) s.

(** [CalibrateBothMaxMin]: MAX then MIN written straight to the ESCs
    (the dwell times pass in between), then [HoldEscMin]. *)
Definition CalibrateBothMaxMin (s : state) : state :=
  HoldEscMin
    (with_esc (write_escs PulseMinUs PulseMinUs
                 (write_escs PulseMaxUs PulseMaxUs (esc s))) s).

(** *** The PID step *)

Definition out_of_range (raw : Z) : bool :=
  (raw <? PotMinSafe) || (raw >? PotMaxSafe).

(** The measurement part: seeding, smoothing, error. *)
Definition filter_pot (raw pf : Z) : Z :=
  let pf0 := if pf =? 0 then raw else pf in
  to_int (fadd (fmul (fsub f1 PotAlpha) (of_int pf0)) (fmul PotAlpha (of_int raw))).

Definition error_of (invert : bool) (pf : Z) : Z :=
  let err := i32 (PotCenter - pf) in
  if invert then i32 (- err) else err.

(** [dtSec], from [now] and [LastTsMs] after [if (LastTsMs==0) LastTsMs=now]. *)
Definition dt_sec (now last : Z) : float :=
  let last0 := if last =? 0 then now else last in
  let dt := fdiv (of_int (u32 (now - last0))) f1000 in
  if fle dt f0 then fdiv (of_int LoopDtMs) f1000 else dt.

(** The differential after its clamp to [±DeltaMaxUs]. *)
Definition u_diff (t : Tuning) (err : Z) (int_us deriv : float) : float :=
  clamp_sym
    (fsub (fadd (fmul (KpUsPerCount t) (of_int err)) int_us)
          (fmul (KdUsPerCountPerSec t) deriv))
    DeltaMaxUs.

(** The arithmetic of [ControlStepPID] on an in-range measurement: the
    PID block after the step and the clamped differential [uDiff]. *)
Definition pid_terms (raw now : Z) (t : Tuning) (p : Pid) : Pid * float :=
  let pf := filter_pot raw (PotFiltered p) in
  let err := error_of (InvertDirection t) pf in
  let dtSec := dt_sec now (LastTsMs p) in
  let lastY0 := if lastY p =? 0 then pf else lastY p in
  let dY := fdiv (of_int (i32 (pf - lastY0))) dtSec in
  let deriv := fadd (fmul (fsub f1 DAlpha) (DerivFilt p)) (fmul DAlpha dY) in
  let int_us :=
    clamp_sym (fadd (IntUs p) (fmul (fmul (KiUsPerCountSec t) (of_int err)) dtSec))
              IntegralMaxUs in
  ({| IntUs := int_us; DerivFilt := deriv; PotFiltered := pf;
      LastTsMs := now; lastY := pf |},
   u_diff t err int_us deriv).

(** The output stage: targets [BaseUs ± (int)uDiff], one slew-limited
    move of each command, written to the ESCs. *)
Definition drive_outputs (uDiff : float) (e : Esc) : Esc :=
  let u1 := ClampInt (i32 (BaseUs + to_int uDiff)) PulseMinUs PulseMaxUs in
  let u2 := ClampInt (i32 (BaseUs - to_int uDiff)) PulseMinUs PulseMaxUs in
  let c1 := slew_toward u1 (CmdUs1 e) in
  let c2 := slew_toward u2 (CmdUs2 e) in
  write_escs c1 c2 (set_cmds c1 c2 e).

(** [ControlStepPID], with the values read from the ADC and the clock. *)
Definition ControlStepPID (raw now : Z) (s : state) : state :=
  if out_of_range raw then HoldEscMin s
  else
    let '(p', uDiff) := pid_terms raw now (tuning s) (pid s) in
    with_esc (drive_outputs uDiff (esc s)) (with_pid p' s).

(** *** Sampling *)

(** The [clamp16] lambda of [TrySample]. *)
Definition clamp16 (v : float) (lim : Z) : Z := i16 (to_int (clamp_sym v lim)).

Definition store (n : Z) (v : Z) (a : list Z) : list Z := <[Z.to_nat n := v]> a.

(** [TrySample], with the clock and ADC values it reads. *)
Definition TrySample (now raw : Z) (s : state) : state :=
  let x := experiment s in
  let b := samples s in
  if negb (ExperimentRunning x) then s
  else if now <? NextSampleAtMs x then s
  else if SampleCount b >=? MaxSamples then s
  else
    let err := error_of (InvertDirection (tuning s)) (PotFiltered (pid s)) in
    let t := u16 (u32 (now - ExperimentStartMs x)) in
    let n := SampleCount b in
    let uP := fmul (KpUsPerCount (tuning s)) (of_int err) in
    let uI := IntUs (pid s) in
    let uD := fmul (fneg (KdUsPerCountPerSec (tuning s))) (DerivFilt (pid s)) in
    let limUs := 2000 in
    with_experiment
      {| ExperimentRunning := ExperimentRunning x;
         ExperimentEndMs := ExperimentEndMs x;
         ExperimentStartMs := ExperimentStartMs x;
         NextSampleAtMs := u32 (NextSampleAtMs x + SamplePeriodMs);
         SamplesReady := SamplesReady x |}
      (with_samples
         {| SampleCount := u16 (n + 1);
            Tms := store n t (Tms b);
            AdcRaw := store n (u16 (ClampInt raw 0 1023)) (AdcRaw b);
            AdcErr := store n (i16 (ClampInt err (-32768) 32767)) (AdcErr b);
            AdcFilt := store n (u16 (ClampInt (PotFiltered (pid s)) 0 1023)) (AdcFilt b);
            PUs := store n (clamp16 uP limUs) (PUs b);
            IUs := store n (clamp16 uI limUs) (IUs b);
            DUs := store n (clamp16 uD limUs) (DUs b) |} s).

(** *** HTTP handlers *)

(** [String(x, decimalPlaces)]: the decimal text of a float.  The routine
    belongs to the Arduino core, not to the sketch, so a reply keeps the
    value and the number of places handed to it, and [print] gives its
    text under a formatter [fmt] taken as a parameter. *)
Record Decimal := String_float { dec_value : float; dec_places : Z }.

Definition print (fmt : float -> Z -> string) (d : Decimal) : string :=
  fmt (dec_value d) (dec_places d).

(** The fields of the [/state] reply.  [kp] and [kd] are printed with 3
    decimals, [ki] with 4. *)
Record Snapshot := {
  st_running : bool;
  st_remain_ms : Z;
  st_kp : Decimal;
  st_ki : Decimal;
  st_kd : Decimal;
  st_invert : bool;
  st_adc : Z;
  st_err : Z;
  st_m1 : Z;
  st_m2 : Z
}.

(** The arrays of the [/data] reply, each cut at [SampleCount]. *)
Record DataReply := {
  d_count : Z;
  d_dt_ms : Z;
  d_t : list Z;
  d_adc_raw : list Z;
  d_adc_filt : list Z;
  d_err : list Z;
  d_p : list Z;
  d_i : list Z;
  d_d : list Z
}.

Inductive response :=
| RespPage
| RespOk                               (* {"ok":true} *)
| RespStart (ok : bool) (msg : string) (* {"ok":..,"msg":".."} of /start *)
| RespState (snap : Snapshot)
| RespNoData                           (* {"ok":false,"msg":"no_data"} *)
| RespData (d : DataReply).

Definition HandleState (adc now : Z) (s : state) : response :=
  let x := experiment s in
  let err := error_of (InvertDirection (tuning s)) (PotFiltered (pid s)) in
  let remain := if ExperimentRunning x then i32 (u32 (ExperimentEndMs x - now)) else 0 in
  let remain := if remain <? 0 then 0 else remain in
  RespState
    {| st_running := ExperimentRunning x;
       st_remain_ms := remain;
       st_kp := String_float (KpUsPerCount (tuning s)) 3;
       st_ki := String_float (KiUsPerCountSec (tuning s)) 4;
       st_kd := String_float (KdUsPerCountPerSec (tuning s)) 3;
       st_invert := InvertDirection (tuning s);
       st_adc := adc;
       st_err := err;
       st_m1 := CmdUs1 (esc s);
       st_m2 := CmdUs2 (esc s) |}.

(** The arguments of a [/set] request: for each key that [Web.hasArg]
    finds, the value of [toFloat()] (of [toInt()] for [invert]). *)
Record SetArgs := {
  arg_kp : option float;
  arg_ki : option float;
  arg_kd : option float;
  arg_invert : option Z
}.

Definition HandleSet (a : SetArgs) (s : state) : response * state :=
  let t := tuning s in
  let kp := match arg_kp a with Some v => constrain v f0 f5 | None => KpUsPerCount t end in
  let ki := match arg_ki a with Some v => constrain v f0 f1 | None => KiUsPerCountSec t end in
  let kd := match arg_kd a with Some v => constrain v f0 f2 | None => KdUsPerCountPerSec t end in
  let inv := match arg_invert a with Some v => negb (v =? 0) | None => InvertDirection t end in
  (RespOk,
   with_tuning {| KpUsPerCount := kp; KiUsPerCountSec := ki;
                  KdUsPerCountPerSec := kd; InvertDirection := inv |} s).

(** [HandleStart], with the three clock values it reads: at the PID
    reset, at the sampling reset, and after the slew to base. *)
Definition HandleStart (ms_reset ms_start ms_end : Z) (s : state) : response * state :=
  if ExperimentRunning (experiment s) then (RespStart false "already_running", s)
  else
    let s1 := with_pid {| IntUs := f0; DerivFilt := f0;
                          PotFiltered := PotFiltered (pid s);
                          LastTsMs := ms_reset; lastY := lastY (pid s) |} s in
    let b := samples s1 in
    let x := experiment s1 in
    let s2 := with_experiment
                {| ExperimentRunning := ExperimentRunning x;
                   ExperimentEndMs := ExperimentEndMs x;
                   ExperimentStartMs := ms_start;
                   NextSampleAtMs := ms_start;
                   SamplesReady := false |}
                (with_samples
                   {| SampleCount := 0; Tms := Tms b; AdcRaw := AdcRaw b;
                      AdcErr := AdcErr b; AdcFilt := AdcFilt b;
                      PUs := PUs b; IUs := IUs b; DUs := DUs b |} s1) in
    let s3 := SlewBothTo BaseUs BaseUs s2 in
    let x3 := experiment s3 in
    (RespStart true "started",
     with_experiment
       {| ExperimentRunning := true;
          ExperimentEndMs := u32 (ms_end + ExperimentDurationMs);
          ExperimentStartMs := ExperimentStartMs x3;
          NextSampleAtMs := NextSampleAtMs x3;
          SamplesReady := SamplesReady x3 |} s3).

Definition HandleData (s : state) : response :=
  let b := samples s in
  if negb (SamplesReady (experiment s)) || (SampleCount b =? 0) then RespNoData
  else
    let n := Z.to_nat (SampleCount b) in
    RespData
      {| d_count := SampleCount b;
         d_dt_ms := SamplePeriodMs;
         d_t := take n (Tms b);
         d_adc_raw := take n (AdcRaw b);
         d_adc_filt := take n (AdcFilt b);
         d_err := take n (AdcErr b);
         d_p := take n (PUs b);
         d_i := take n (IUs b);
         d_d := take n (DUs b) |}.

(** A request dispatched by [Web.handleClient()], with the readings its
    handler makes. *)
Inductive request :=
| ReqRoot
| ReqState (adc now : Z)
| ReqSet (a : SetArgs)
| ReqStart (ms_reset ms_start ms_end : Z)
| ReqData.

Definition dispatch (r : request) (s : state) : response * state :=
  match r with
  | ReqRoot => (RespPage, s)
  | ReqState adc now => (HandleState adc now s, s)
  | ReqSet a => HandleSet a s
  | ReqStart t0 t1 t2 => HandleStart t0 t1 t2 s
  | ReqData => (HandleData s, s)
  end.

(** [ServiceWeb]: at most one pending request is served; [None] when no
    client is waiting or Wi-Fi is down. *)
Definition ServiceWeb (r : option request) (s : state) : state :=
  match r with
  | Some q => snd (dispatch q s)
  | None => s
  end.

(** *** setup and loop *)

(** The globals as initialised. *)
Definition boot : state :=
  {| tuning := {| KpUsPerCount := f0_25; KiUsPerCountSec := f0_10;
                  KdUsPerCountPerSec := f0_10; InvertDirection := false |};
     pid := {| IntUs := f0; DerivFilt := f0; PotFiltered := 0;
               LastTsMs := 0; lastY := 0 |};
     esc := {| CmdUs1 := PulseMinUs; CmdUs2 := PulseMinUs; EscOut := [] |};
     experiment := {| ExperimentRunning := false; ExperimentEndMs := 0;
                      ExperimentStartMs := 0; NextSampleAtMs := 0;
                      SamplesReady := false |};
     samples := {| SampleCount := 0;
                   Tms := replicate 500 0; AdcRaw := replicate 500 0;
                   AdcErr := replicate 500 0; AdcFilt := replicate 500 0;
                   PUs := replicate 500 0; IUs := replicate 500 0;
                   DUs := replicate 500 0 |} |}.

(** [setup]: hold MIN, boot hold, relay on, calibration (arming). *)
Definition setup (s : state) : state := CalibrateBothMaxMin (HoldEscMin s).

(** The values one running iteration of [loop] reads, in program order:
    ADC and clock in [ControlStepPID], clock and ADC in [TrySample], clock
    at the end-of-run test. *)
Record Readings := {
  adc_ctrl : Z;
  ms_ctrl : Z;
  ms_sample : Z;
  adc_sample : Z;
  ms_end : Z
}.

(** The end-of-run test and the stop:
    [(int32_t)(millis()-ExperimentEndMs) >= 0]. *)
Definition run_elapsed (now : Z) (s : state) : bool :=
  i32 (u32 (now - ExperimentEndMs (experiment s))) >=? 0.

Definition stop_run (s : state) : state :=
  let x := experiment s in
  let s1 := with_experiment
              {| ExperimentRunning := false;
                 ExperimentEndMs := ExperimentEndMs x;
                 ExperimentStartMs := ExperimentStartMs x;
                 NextSampleAtMs := NextSampleAtMs x;
                 SamplesReady := SamplesReady x |} s in
  let s2 := HoldEscMin s1 in
  let x2 := experiment s2 in
  with_experiment
    {| ExperimentRunning := ExperimentRunning x2;
       ExperimentEndMs := ExperimentEndMs x2;
       ExperimentStartMs := ExperimentStartMs x2;
       NextSampleAtMs := NextSampleAtMs x2;
       SamplesReady := true |} s2.

(** The running branch of [loop]. *)
Definition running_step (r : Readings) (s : state) : state :=
  let s1 := ControlStepPID (adc_ctrl r) (ms_ctrl r) s in
  let s2 := TrySample (ms_sample r) (adc_sample r) s1 in
  if run_elapsed (ms_end r) s2 then stop_run s2 else s2.

(** The idle branch of [loop] after the web service: hold MIN. *)
Definition idle_step (s : state) : state := HoldEscMin s.

(** One iteration of [loop].  The serial print of [PrintStateOnce] and
    its throttle are left out. *)
Definition loop (q : option request) (r : Readings) (s : state) : state :=
  if negb (ExperimentRunning (experiment s))
  then idle_step (ServiceWeb q s)
  else running_step r s.

End Rig.

(** ** The first version of the experiment sketch

    The file opens with the version that has no sampling buffer.  Its
    [ControlStepPID], [HandleSet] and [HandleState] read the same as above;
    [HandleStart] and [loop] lack the sampling lines. *)

Module RigV1.

Import Rig.

Definition HandleStart (ms_reset ms_end : Z) (s : state) : response * state :=
  if ExperimentRunning (experiment s) then (RespStart false "already_running", s)
  else
    let s1 := with_pid {| IntUs := f0; DerivFilt := f0;
                          PotFiltered := PotFiltered (pid s);
                          LastTsMs := ms_reset; lastY := lastY (pid s) |} s in
    let s3 := SlewBothTo BaseUs BaseUs s1 in
    let x3 := experiment s3 in
    (RespStart true "started",
     with_experiment
       {| ExperimentRunning := true;
          ExperimentEndMs := u32 (ms_end + ExperimentDurationMs);
          ExperimentStartMs := ExperimentStartMs x3;
          NextSampleAtMs := NextSampleAtMs x3;
          SamplesReady := SamplesReady x3 |} s3).

Definition stop_run (s : state) : state :=
  let x := experiment s in
  HoldEscMin
    (with_experiment
       {| ExperimentRunning := false;
          ExperimentEndMs := ExperimentEndMs x;
          ExperimentStartMs := ExperimentStartMs x;
          NextSampleAtMs := NextSampleAtMs x;
          SamplesReady := SamplesReady x |} s).

Definition running_step (adc now_ctrl now_end : Z) (s : state) : state :=
  let s1 := ControlStepPID adc now_ctrl s in
  if run_elapsed now_end s1 then stop_run s1 else s1.

End RigV1.

(** ** The serial-only sketch, [src/PracticeV2.ino] *)

Module Standalone.

Definition CalMinUs : Z := 800.
Definition CalMaxUs : Z := 2300.

Definition PotCenter : Z := 660.
Definition InvertDirection : bool := false.
Definition PotAlpha : float := f0_20.
Definition KpUsPerCount : float := f0_25.
Definition KiUsPerCountSec : float := f0_10.
Definition KdUsPerCountPerSec : float := f0_10.
Definition IntegralMaxUs : Z := 80.
Definition DAlpha : float := f0_20.
Definition LoopDtMs : Z := 10.

Record state := {
  PotFiltered : Z;
  IntUs : float;
  DerivFilt : float;
  LastPotFilt : Z;
  LastTsMs : Z;
  esc : Esc
}.

(** The globals as initialised. *)
Definition boot : state :=
  {| PotFiltered := PotCenter; IntUs := f0; DerivFilt := f0;
     LastPotFilt := PotCenter; LastTsMs := 0;
     esc := {| CmdUs1 := CalMinUs; CmdUs2 := CalMinUs; EscOut := [] |} |}.

Definition with_esc (e : Esc) (s : state) : state :=
  {| PotFiltered := PotFiltered s; IntUs := IntUs s; DerivFilt := DerivFilt s;
     LastPotFilt := LastPotFilt s; LastTsMs := LastTsMs s; esc := e |}.

(** [CalibrateBothMaxMin]: MAX written and held, then MIN. *)
Definition CalibrateBothMaxMin (s : state) : state :=
  let e1 := set_cmds CalMaxUs CalMaxUs (write_escs CalMaxUs CalMaxUs (esc s)) in
  with_esc (set_cmds CalMinUs CalMinUs (write_escs CalMinUs CalMinUs e1)) s.

Definition SlewToBase (s : state) : state :=
  with_esc (SlewBothTo_esc BaseUs BaseUs (esc s)) s.

(** [setup], with the clock value read at its end. *)
Definition setup (now : Z) (s : state) : state :=
  let s1 := SlewToBase (CalibrateBothMaxMin s) in
  {| PotFiltered := PotCenter; IntUs := f0; DerivFilt := f0;
     LastPotFilt := PotCenter; LastTsMs := now; esc := esc s1 |}.

(** [dt] of [ControlStepPID]. *)
Definition dt_sec (now last : Z) : float :=
  let dt := if last =? 0 then fmul (of_int LoopDtMs) f0_001
            else fmul (of_int (u32 (now - last))) f0_001 in
  if flt dt f0_001 then f0_001 else dt.

(** The smoothed measurement and the error of a step. *)
Definition filter_pot (raw pf : Z) : Z :=
  to_int (roundf (fadd (of_int pf) (fmul PotAlpha (of_int (i32 (raw - pf)))))).

Definition error_of (pf : Z) : Z :=
  let err := i32 (PotCenter - pf) in
  if InvertDirection then i32 (- err) else err.

(** The filtered derivative of the measurement after a step. *)
Definition deriv_of (now raw : Z) (s : state) : float :=
  let pf := filter_pot raw (PotFiltered s) in
  let dCounts := of_int (i32 (pf - LastPotFilt s)) in
  let dMeasPerSec := fdiv dCounts (dt_sec now (LastTsMs s)) in
  fadd (fmul (fsub f1 DAlpha) (DerivFilt s)) (fmul DAlpha dMeasPerSec).

(** [uNoI = pUs + dUs], the output before the integral is added. *)
Definition u_no_i (now raw : Z) (s : state) : float :=
  let err := error_of (filter_pot raw (PotFiltered s)) in
  fadd (fmul KpUsPerCount (of_int err))
       (fmul (fneg KdUsPerCountPerSec) (deriv_of now raw s)).

(** [fabs(uNoI) < (DeltaMaxUs - 5)].  The sketch compares in [double];
    the promotion is exact, so the order is the one of [float]. *)
Definition allowIntegrate (uNoI : float) : bool :=
  flt (fabs uNoI) (of_int (i32 (DeltaMaxUs - 5))).

(** [ControlStepPID], with the clock and ADC values it reads. *)
Definition ControlStepPID (now raw : Z) (s : state) : state :=
  let dt := dt_sec now (LastTsMs s) in
  let pf := filter_pot raw (PotFiltered s) in
  let err := error_of pf in
  let deriv := deriv_of now raw s in
  let uNoI := u_no_i now raw s in
  let int_us :=
    if allowIntegrate uNoI
    then clamp_sym (fadd (IntUs s) (fmul (fmul KiUsPerCountSec (of_int err)) dt))
                   IntegralMaxUs
    else IntUs s in
  let u := fadd uNoI int_us in
  let deltaUs := ClampInt (to_int (roundf u)) (- DeltaMaxUs) DeltaMaxUs in
  let target1 := ClampInt (i32 (BaseUs + deltaUs)) PulseMinUs PulseMaxUs in
  let target2 := ClampInt (i32 (BaseUs - deltaUs)) PulseMinUs PulseMaxUs in
  let c1 := slew_toward target1 (CmdUs1 (esc s)) in
  let c2 := slew_toward target2 (CmdUs2 (esc s)) in
  {| PotFiltered := pf; IntUs := int_us; DerivFilt := deriv;
     LastPotFilt := pf; LastTsMs := now;
     esc := write_escs c1 c2 (set_cmds c1 c2 (esc s)) |}.

(** One iteration of [loop]: the range check on a first ADC read, then
    the PID step.  The safe MIN is written to the ESCs; the command
    variables are not touched. *)
Definition loop (raw_check now raw : Z) (s : state) : state :=
  if (raw_check <? 300) || (raw_check >? 900)
  then with_esc (write_escs PulseMinUs PulseMinUs (esc s)) s
  else ControlStepPID now raw s.

End Standalone.


(** * Vocabulary of the properties *)

Import Rig.

(** The states the experiment sketch can be in: after [setup], and after
    each iteration of [loop] (requests are only served from [loop]). *)
Inductive reachable : state -> Prop :=
| reach_setup : reachable (setup boot)
| reach_loop (q : option request) (r : Readings) (s : state) :
    reachable s -> reachable (loop q r s).

(** Both commands inside the working pulse range. *)
Definition cmds_in_range (e : Esc) : Prop :=
  PulseMinUs <= CmdUs1 e <= PulseMaxUs /\ PulseMinUs <= CmdUs2 e <= PulseMaxUs.

(** [s'] has both commands at MIN, MIN was the last pulse written, and the
    PID block is the one of [s]. *)
Definition parked (s s' : state) : Prop :=
  CmdUs1 (esc s') = PulseMinUs /\ CmdUs2 (esc s') = PulseMinUs /\
  hd_error (EscOut (esc s')) = Some (PulseMinUs, PulseMinUs) /\
  pid s' = pid s.

(** [|IntUs| <= IntegralMaxUs]. *)
Definition integral_bounded (p : Pid) : bool := abs_le (IntUs p) IntegralMaxUs.

(** The un-integrated part of the output in the experiment sketch,
    [KpUsPerCount*err - KdUsPerCountPerSec*DerivFilt], for the error and
    derivative of the step that starts from [p]. *)
Definition p_plus_d (raw now : Z) (t : Tuning) (p : Pid) : float :=
  let p' := fst (pid_terms raw now t p) in
  fsub (fmul (KpUsPerCount t) (of_int (error_of (InvertDirection t) (PotFiltered p'))))
       (fmul (KdUsPerCountPerSec t) (DerivFilt p')).

(** The three gains a [/set] request can write, with the bounds
    [HandleSet] gives each, the argument that carries it, where it is
    stored and where [/state] reports it. *)
Inductive gain := GainKp | GainKi | GainKd.

Definition gain_hi (g : gain) : float :=
  match g with GainKp => f5 | GainKi => f1 | GainKd => f2 end.

Definition gain_arg (g : gain) (a : SetArgs) : option float :=
  match g with GainKp => arg_kp a | GainKi => arg_ki a | GainKd => arg_kd a end.

Definition gain_stored (g : gain) (t : Tuning) : float :=
  match g with
  | GainKp => KpUsPerCount t
  | GainKi => KiUsPerCountSec t
  | GainKd => KdUsPerCountPerSec t
  end.

(** The number of decimals [/state] prints a gain with. *)
Definition gain_places (g : gain) : Z :=
  match g with GainKp => 3 | GainKi => 4 | GainKd => 3 end.

(** The text a [/state] reply carries for a gain, under the formatter
    [fmt]. *)
Definition gain_reported (fmt : float -> Z -> string) (g : gain) (r : response)
  : option string :=
  match r with
  | RespState snap =>
      Some (print fmt match g with
                      | GainKp => st_kp snap
                      | GainKi => st_ki snap
                      | GainKd => st_kd snap
                      end)
  | _ => None
  end.

(** A requested value below the lower bound or above the upper bound. *)
Definition out_of_bounds (g : gain) (v : float) : bool :=
  flt v f0 || fgt v (gain_hi g).

(** A state of the experiment sketch with [Kp] at its upper bound, in which
    a run has just been started. *)
Definition high_gain_run : state :=
  snd (HandleStart 1000 1000 1390
         (snd (HandleSet {| arg_kp := Some f5; arg_ki := None; arg_kd := None;
                            arg_invert := None |} (setup boot)))).

(** C2 as the claim words it, read on the experiment sketch: with the
    un-integrated output at or beyond [DeltaMaxUs - 5] in magnitude, an
    in-range control step leaves the integral as it was. *)
Definition integral_held_near_saturation : Prop :=
  forall (raw now : Z) (s : state),
    out_of_range raw = false ->
    flt (fabs (p_plus_d raw now (tuning s) (pid s))) (of_int (DeltaMaxUs - 5)) = false ->
    IntUs (pid (ControlStepPID raw now s)) = IntUs (pid s).

(** C6 as the claim words it: the filtered measurement equals the setpoint
    after arming and after every accepted start. *)
Definition pot_filter_reset : Prop :=
  PotFiltered (pid (setup boot)) = PotCenter /\
  forall (t0 t1 t2 : Z) (s : state),
    ExperimentRunning (experiment s) = false ->
    PotFiltered (pid (snd (HandleStart t0 t1 t2 s))) = PotCenter.

(** Pulses written one after the other, starting from the commands [prev]:
    on each channel two consecutive values differ by at most
    [SlewStepUs]. *)
Fixpoint slew_chain (prev : Z * Z) (l : list (Z * Z)) : Prop :=
  match l with
  | [] => True
  | x :: l' =>
      Z.abs (fst x - fst prev) <= SlewStepUs /\
      Z.abs (snd x - snd prev) <= SlewStepUs /\
      slew_chain x l'
  end.

(** Readings of an iteration in which the clock does not advance between
    the reads and the ADC gives the same value twice. *)
Definition nominal (t adc : Z) : Readings :=
  {| adc_ctrl := adc; ms_ctrl := t; ms_sample := t; adc_sample := adc; ms_end := t |}.

(** [n] iterations 10 ms apart from [t0] on, the ADC constant at [adc]. *)
Definition ticks (t0 : Z) (n : nat) (adc : Z) : list Readings :=
  map (fun k => nominal (t0 + 10 * Z.of_nat k) adc) (seq 0 n).

(** Iterations of [loop] with no request pending. *)
Definition run_loop (rs : list Readings) (s : state) : state :=
  fold_left (fun s r => loop None r s) rs s.

(** The idle iteration that serves a start request at 1000 ms; the slew to
    base takes its 39 iterations of 10 ms, so the run is timed from
    1390 ms. *)
Definition started : state :=
  loop (Some (ReqStart 1000 1000 1390)) (nominal 1000 660) (setup boot).

(** C3 as the claim words it: from one iteration of [loop] to the next
    each command moves by at most [SlewStepUs], unless the iteration is
    the stop at the end of the run. *)
Definition slew_except_hard_stop : Prop :=
  forall (q : option request) (r : Readings) (s : state),
    reachable s ->
    ExperimentRunning (experiment s) && negb (ExperimentRunning (experiment (loop q r s)))
    = false ->
    Z.abs (CmdUs1 (esc (loop q r s)) - CmdUs1 (esc s)) <= SlewStepUs /\
    Z.abs (CmdUs2 (esc (loop q r s)) - CmdUs2 (esc s)) <= SlewStepUs.

(** A request whose integral gain, if it carries one, is a number. *)
Definition numeric_ki (q : option request) : Prop :=
  match q with
  | Some (ReqSet a) =>
      match arg_ki a with Some v => is_nan v = false | None => True end
  | _ => True
  end.

(** The states reached when no request ever carries a NaN integral gain. *)
Inductive reachable_numeric : state -> Prop :=
| reachn_setup : reachable_numeric (setup boot)
| reachn_loop (q : option request) (r : Readings) (s : state) :
    reachable_numeric s -> numeric_ki q -> reachable_numeric (loop q r s).

(** A [/set] request that carries NaN as integral gain. *)
Definition nan_ki_args : SetArgs :=
  {| arg_kp := None; arg_ki := Some S754_nan; arg_kd := None; arg_invert := None |}.

(** C5 as the claim words it: after every iteration of a run the two
    commands add up to [2*BaseUs], give or take the rounding of each
    channel. *)
Definition commands_symmetric_in_run : Prop :=
  forall (r : Readings) (s : state),
    reachable s ->
    ExperimentRunning (experiment s) = true ->
    Z.abs (CmdUs1 (esc (loop None r s)) + CmdUs2 (esc (loop None r s)) - 2 * BaseUs) <= 2.

(** The time since the start of the run at which an iteration samples, as
    [TrySample] computes it before narrowing it to 16 bits. *)
Definition sample_offset (start : Z) (r : Readings) : Z := u32 (ms_sample r - start).

(** The times of the samples recorded so far. *)
Definition recorded_times (s : state) : list Z :=
  take (Z.to_nat (SampleCount (samples s))) (Tms (samples s)).

(** What a run keeps true of its buffer: the array has its declared size,
    the count is within it, the recorded times increase strictly and all
    lie below [lo]. *)
Definition times_sorted_below (start lo : Z) (s : state) : Prop :=
  ExperimentStartMs (experiment s) = start /\
  length (Tms (samples s)) = Z.to_nat MaxSamples /\
  0 <= SampleCount (samples s) <= MaxSamples /\
  StronglySorted Z.lt (recorded_times s) /\
  Forall (fun x => x < lo) (recorded_times s).

(** The nominal run: started at 1000 ms, iterations every 10 ms from
    1400 ms on, the measurement steady at the setpoint; the 2000th
    iteration finds the 20 s elapsed. *)
Definition nominal_run : state := run_loop (ticks 1400 2000 660) started.

(** * Vocabulary of the further properties *)

(** A pulse pair inside the working range of the ESCs. *)
Definition pulse_ok (p : Z * Z) : Prop :=
  PulseMinUs <= fst p <= PulseMaxUs /\ PulseMinUs <= snd p <= PulseMaxUs.

(** The sampling buffer within its declared size: the count does not
    exceed [MaxSamples] and each array has [MaxSamples] cells. *)
Definition buffer_ok (b : Samples) : Prop :=
  0 <= SampleCount b <= MaxSamples /\
  length (Tms b) = Z.to_nat MaxSamples /\
  length (AdcRaw b) = Z.to_nat MaxSamples /\
  length (AdcErr b) = Z.to_nat MaxSamples /\
  length (AdcFilt b) = Z.to_nat MaxSamples /\
  length (PUs b) = Z.to_nat MaxSamples /\
  length (IUs b) = Z.to_nat MaxSamples /\
  length (DUs b) = Z.to_nat MaxSamples.

(** The integers [lo, lo+1, ..., lo+n-1]. *)
Definition rng (lo : Z) (n : nat) : list Z := map (fun k => lo + Z.of_nat k) (seq 0 n).

(** What one smoothing step does to a filtered value [pf] and a raw
    measurement [raw]: the result lies between the two, it is below [pf]
    when the measurement is, and a measurement at most 4 counts above
    [pf] leaves [pf] where it is. *)
Definition smoothing_ok (raw pf : Z) : bool :=
  let f := filter_pot raw pf in
  (Z.min raw pf <=? f) && (f <=? Z.max raw pf) &&
  implb (raw <? pf) (f <? pf) &&
  implb ((pf <=? raw) && (raw <=? pf + 4)) (f =? pf).

(** [smoothing_ok] on a row of measurements, with the two products of the
    smoothing step computed once per value: [smoothing_term] pairs a
    measurement with its product, [smoothing_row] checks one filtered
    value against all of them. *)
Definition smoothing_term (raw : Z) : Z * float := (raw, fmul PotAlpha (of_int raw)).

Definition smoothing_cell (a : float) (pf : Z) (rb : Z * float) : bool :=
  let raw := fst rb in
  let f := to_int (fadd a (snd rb)) in
  (Z.min raw pf <=? f) && (f <=? Z.max raw pf) &&
  implb (raw <? pf) (f <? pf) &&
  implb ((pf <=? raw) && (raw <=? pf + 4)) (f =? pf).

Definition smoothing_row (c : float) (rs : list (Z * float)) (pf : Z) : bool :=
  let a := fmul c (of_int pf) in forallb (smoothing_cell a pf) rs.

(** The states of the serial-only sketch: after [setup], and after each
    iteration of its [loop]. *)
Inductive sa_reachable : Standalone.state -> Prop :=
| sa_reach_setup (now : Z) : sa_reachable (Standalone.setup now Standalone.boot)
| sa_reach_loop (raw_check now raw : Z) (s : Standalone.state) :
    sa_reachable s -> sa_reachable (Standalone.loop raw_check now raw s).

(** A pending start request. *)
Definition is_start (q : option request) : bool :=
  match q with Some (ReqStart _ _ _) => true | _ => false end.

(** A [/set] request none of whose gains is NaN. *)
Definition numeric_gains (a : SetArgs) : Prop :=
  forall (g : gain) (v : float), gain_arg g a = Some v -> is_nan v = false.

(** Each gain inside the bounds [HandleSet] clamps to. *)
Definition gains_in_bounds (t : Tuning) : Prop :=
  forall g : gain,
    fle f0 (gain_stored g t) = true /\ fle (gain_stored g t) (gain_hi g) = true.

(** The cells [TrySample] writes at index [n] hold values of their
    range: ADC values in [0, 1023], the three PID terms within
    [±2000]. *)
Definition cells_in_range (n : nat) (b : Samples) : Prop :=
  (exists x, AdcRaw b !! n = Some x /\ 0 <= x <= 1023) /\
  (exists x, AdcFilt b !! n = Some x /\ 0 <= x <= 1023) /\
  (exists x, AdcErr b !! n = Some x /\ -32768 <= x <= 32767) /\
  (exists x, PUs b !! n = Some x /\ -2000 <= x <= 2000) /\
  (exists x, IUs b !! n = Some x /\ -2000 <= x <= 2000) /\
  (exists x, DUs b !! n = Some x /\ -2000 <= x <= 2000).

(** The number of slew-limited moves a command needs to get from [c] to
    [t]. *)
Definition slew_steps (t c : Z) : Z := (Z.abs (t - c) + (SlewStepUs - 1)) / SlewStepUs.

(** The rounding filter of the serial-only sketch around a filtered value
    [pf]: a measurement within 2 counts leaves it, one 3 counts away
    moves it by one. *)
Definition sa_dead_band_ok (pf : Z) : bool :=
  forallb (fun k => Standalone.filter_pot (pf + k) pf =? pf) (rng (-2) 5) &&
  (Standalone.filter_pot (pf + 3) pf =? pf + 1) &&
  (Standalone.filter_pot (pf - 3) pf =? pf - 1).

(** * Facts about the binary32 operations *)

(** ** Number of binary digits *)

Lemma digits2_pos_log2 (p : positive) :
  Zpos (digits2_pos p) = Z.log2 (Zpos p) + 1.
Proof.
  assert (H : forall q, digits2_pos q = Pos.size q).
  { induction q as [q IH | q IH |]; simpl; now rewrite ?IH. }
  rewrite H. destruct p; simpl; lia.
Qed.

Lemma Zdigits2_log2 (m : Z) : 0 < m -> Zdigits2 m = Z.log2 m + 1.
Proof. destruct m; try lia. intros _. apply digits2_pos_log2. Qed.

Lemma Zdigits2_nonneg (m : Z) : 0 <= Zdigits2 m.
Proof. destruct m; simpl; lia. Qed.

Lemma Zdigits2_le (a b : Z) : 0 <= a <= b -> Zdigits2 a <= Zdigits2 b.
Proof.
  intros [Ha Hab].
  destruct (Z.eq_dec a 0) as [-> | Hne]; [apply Zdigits2_nonneg |].
  rewrite !Zdigits2_log2 by lia.
  pose proof (Z.log2_le_mono a b Hab). lia.
Qed.

Lemma Zdigits2_succ (m : Z) : 0 <= m -> Zdigits2 (m + 1) <= Zdigits2 m + 1.
Proof.
  intros Hm.
  destruct (Z.eq_dec m 0) as [-> | Hne]; [simpl; lia |].
  rewrite !Zdigits2_log2 by lia.
  pose proof (Z.log2_succ_le m). unfold Z.succ in *. lia.
Qed.

Lemma Zdigits2_shiftl (m s : Z) :
  0 < m -> 0 <= s -> Zdigits2 (Z.shiftl m s) = Zdigits2 m + s.
Proof.
  intros Hm Hs.
  assert (0 < Z.shiftl m s).
  { rewrite Z.shiftl_mul_pow2 by lia. pose proof (Z.pow_pos_nonneg 2 s). nia. }
  rewrite !Zdigits2_log2 by lia.
  rewrite Z.log2_shiftl by lia. lia.
Qed.

Lemma Zdigits2_lt_pow2 (m k : Z) : 0 <= m -> 0 <= k -> Zdigits2 m <= k -> m < 2 ^ k.
Proof.
  intros Hm Hk Hd.
  destruct (Z.eq_dec m 0) as [-> | Hne]; [apply Z.pow_pos_nonneg; lia |].
  rewrite Zdigits2_log2 in Hd by lia.
  apply Z.log2_lt_pow2; lia.
Qed.

Lemma Zdigits2_of_lt_pow2 (m k : Z) : 0 <= m < 2 ^ k -> 0 <= k -> Zdigits2 m <= k.
Proof.
  intros [Hm Hlt] Hk.
  destruct (Z.eq_dec m 0) as [-> | Hne]; [simpl; lia |].
  rewrite Zdigits2_log2 by lia.
  apply Z.log2_lt_pow2 in Hlt; lia.
Qed.

(** ** Right shifts of the rounding record *)

Lemma shr_1_spec (mrs : shr_record) :
  0 <= shr_m mrs ->
  0 <= shr_m (shr_1 mrs) <= shr_m mrs /\
  Zdigits2 (shr_m (shr_1 mrs)) = Z.max 0 (Zdigits2 (shr_m mrs) - 1).
Proof.
  destruct mrs as [m r s]; simpl. intros Hm.
  destruct m as [| [p | p |] | p]; simpl; try lia.
Qed.

Lemma iter_shr_1_spec (p : positive) :
  forall mrs : shr_record,
    0 <= shr_m mrs ->
    0 <= shr_m (SpecFloat.iter_pos shr_1 p mrs) <= shr_m mrs /\
    Zdigits2 (shr_m (SpecFloat.iter_pos shr_1 p mrs))
    = Z.max 0 (Zdigits2 (shr_m mrs) - Zpos p).
Proof.
  induction p as [p IH | p IH |]; intros mrs Hm; simpl.
  - destruct (shr_1_spec mrs Hm) as [H1 E1].
    destruct (IH _ (proj1 H1)) as [H2 E2].
    destruct (IH _ (proj1 H2)) as [H3 E3].
    split; [lia |]. rewrite E3, E2, E1. lia.
  - destruct (IH _ Hm) as [H2 E2].
    destruct (IH _ (proj1 H2)) as [H3 E3].
    split; [lia |]. rewrite E3, E2. lia.
  - apply shr_1_spec, Hm.
Qed.

Lemma shr_m_of_loc (m : Z) (l : location) : shr_m (shr_record_of_loc m l) = m.
Proof. destruct l as [| []]; reflexivity. Qed.

(** What [shr_fexp] leaves: a mantissa of at most [prec] digits, at the
    exponent the format asks for. *)
Lemma shr_fexp_spec (m e : Z) (l : location) :
  0 <= m ->
  let r := shr_fexp prec emax m e l in
  0 <= shr_m (fst r) /\
  shr_m (fst r) <= m /\
  Zdigits2 (shr_m (fst r)) <= prec /\
  snd r = Z.max e (fexp prec emax (Zdigits2 m + e)) /\
  Zdigits2 (shr_m (fst r)) + snd r <= Z.max (snd r) (Zdigits2 m + e).
Proof.
  intros Hm. unfold shr_fexp, shr.
  pose proof (Zdigits2_nonneg m) as Hd.
  assert (Hf : Zdigits2 m + e - prec <= fexp prec emax (Zdigits2 m + e))
    by (unfold fexp; lia).
  destruct (fexp prec emax (Zdigits2 m + e) - e) as [| p | p] eqn:En; simpl.
  - rewrite shr_m_of_loc. unfold prec, emax in *; lia.
  - destruct (iter_shr_1_spec p (shr_record_of_loc m l)) as [H1 E1];
      [rewrite shr_m_of_loc; exact Hm |].
    rewrite shr_m_of_loc in E1, H1. rewrite E1.
    unfold prec, emax in *; lia.
  - rewrite shr_m_of_loc. unfold prec, emax in *; lia.
Qed.

(** ** Rounding *)

Lemma round_nearest_even_bounds (m : Z) (l : location) :
  m <= round_nearest_even m l <= m + 1.
Proof.
  destruct l as [| []]; simpl; try lia.
  destruct (Z.even m); lia.
Qed.

(** The shape of a rounded result: the sign asked for, never NaN, a
    mantissa of at most 24 digits, and infinity only for a magnitude at or
    above [2^emax]. *)
Lemma binary_round_aux_spec (sx : bool) (mx ex : Z) (lx : location) :
  0 <= mx ->
  match binary_round_aux prec emax sx mx ex lx with
  | S754_zero s => s = sx
  | S754_finite s m e =>
      s = sx /\ Zpos (digits2_pos m) <= prec /\
      e <= Z.max ex (Z.max (emin prec emax) (Zdigits2 mx + ex + 1 - prec))
  | S754_infinity s => s = sx /\ (emax - prec < ex \/ emax <= Zdigits2 mx + ex)
  | S754_nan => False
  end.
Proof.
  intros Hm. unfold binary_round_aux.
  pose proof (shr_fexp_spec mx ex lx Hm) as H1.
  destruct (shr_fexp prec emax mx ex lx) as [mrs1 e1]. simpl in H1.
  destruct H1 as (P1 & L1 & D1 & E1 & S1).
  pose proof (round_nearest_even_bounds (shr_m mrs1) (loc_of_shr_record mrs1)) as Hr.
  set (mr := round_nearest_even (shr_m mrs1) (loc_of_shr_record mrs1)) in *.
  assert (Hmr : 0 <= mr) by lia.
  pose proof (shr_fexp_spec mr e1 loc_Exact Hmr) as H2.
  destruct (shr_fexp prec emax mr e1 loc_Exact) as [mrs2 e2]. simpl in H2.
  destruct H2 as (P2 & L2 & D2 & E2 & S2).
  destruct (shr_m mrs2) as [| m | m] eqn:Em.
  - reflexivity.
  - destruct (Z.leb_spec e2 (emax - prec)) as [Hle | Hgt].
    + simpl in D2. split; [reflexivity |]. split; [exact D2 |].
      pose proof (Zdigits2_le mr (shr_m mrs1 + 1) ltac:(lia)) as Hd.
      pose proof (Zdigits2_succ (shr_m mrs1) P1) as Hs.
      pose proof (Zdigits2_nonneg mx).
      unfold fexp, emin, prec, emax in *. lia.
    + split; [reflexivity |].
      pose proof (Zdigits2_le mr (shr_m mrs1 + 1) ltac:(lia)) as Hd.
      pose proof (Zdigits2_succ (shr_m mrs1) P1) as Hs.
      pose proof (Zdigits2_nonneg mx).
      unfold fexp, emin, prec, emax in *. lia.
  - lia.
Qed.

(** Left alignment before rounding. *)
Lemma digits2_pos_iter_xO (d m : positive) :
  Zpos (digits2_pos (Pos.iter xO m d)) = Zpos (digits2_pos m) + Zpos d.
Proof.
  induction d as [| d IH] using Pos.peano_ind.
  - simpl. lia.
  - rewrite Pos.iter_succ. simpl. lia.
Qed.

Lemma shl_align_spec (mx : positive) (ex ex' : Z) :
  let r := shl_align mx ex ex' in
  Zpos (digits2_pos (fst r)) + snd r = Zpos (digits2_pos mx) + ex /\
  snd r = Z.min ex ex'.
Proof.
  unfold shl_align.
  destruct (ex' - ex) as [| d | d] eqn:E; simpl; try lia.
  rewrite digits2_pos_iter_xO. lia.
Qed.

Lemma binary_round_spec (sx : bool) (mx : positive) (ex : Z) :
  match binary_round prec emax sx mx ex with
  | S754_zero s => s = sx
  | S754_finite s m e =>
      s = sx /\ Zpos (digits2_pos m) <= prec /\
      e <= Z.max ex (Z.max (emin prec emax) (Zpos (digits2_pos mx) + ex + 1 - prec))
  | S754_infinity s => s = sx /\ (emax - prec < ex \/ emax <= Zpos (digits2_pos mx) + ex)
  | S754_nan => False
  end.
Proof.
  unfold binary_round.
  pose proof (shl_align_spec mx ex (fexp prec emax (Zpos (digits2_pos mx) + ex))) as Ha.
  destruct (shl_align mx ex (fexp prec emax (Zpos (digits2_pos mx) + ex))) as [mz ez].
  simpl in Ha. destruct Ha as [Hd He].
  pose proof (binary_round_aux_spec sx (Zpos mz) ez loc_Exact ltac:(lia)) as H.
  destruct (binary_round_aux prec emax sx (Zpos mz) ez loc_Exact); auto;
    destruct H as [Hs H]; (split; [exact Hs |]); simpl in H; lia.
Qed.

Lemma binary_normalize_spec (m e : Z) (sz : bool) :
  match binary_normalize prec emax m e sz with
  | S754_zero s => True
  | S754_finite s m' e' =>
      s = (m <? 0) /\ Zpos (digits2_pos m') <= prec /\
      e' <= Z.max e (Z.max (emin prec emax) (Zdigits2 m + e + 1 - prec))
  | S754_infinity s => emax - prec < e \/ emax <= Zdigits2 m + e
  | S754_nan => False
  end.
Proof.
  destruct m as [| p | p]; simpl; [exact I | |].
  - pose proof (binary_round_spec false p e) as H.
    destruct (binary_round prec emax false p e); auto; tauto.
  - pose proof (binary_round_spec true p e) as H.
    destruct (binary_round prec emax true p e); auto; tauto.
Qed.

(** ** The operations never leave the format *)

Lemma of_int_spec (z : Z) :
  match of_int z with
  | S754_zero _ => True
  | S754_finite s m e =>
      s = (z <? 0) /\ Zpos (digits2_pos m) <= prec /\
      e <= Z.max 0 (Zdigits2 z + 1 - prec)
  | S754_infinity _ => emax <= Zdigits2 z
  | S754_nan => False
  end.
Proof.
  unfold of_int. pose proof (binary_normalize_spec z 0 false) as H.
  pose proof (Zdigits2_nonneg z).
  destruct (binary_normalize prec emax z 0 false); auto.
  - unfold emax, prec in *. lia.
  - unfold emin, emax, prec in *. intuition lia.
Qed.

Lemma of_int_wf (z : Z) : wf32 (of_int z) = true.
Proof.
  pose proof (of_int_spec z) as H.
  destruct (of_int z); simpl; auto. apply Z.leb_le. tauto.
Qed.

Lemma of_int_finite (z : Z) : - 2 ^ 64 < z < 2 ^ 64 -> is_finite (of_int z) = true.
Proof.
  intros Hz. pose proof (of_int_spec z) as H.
  destruct (of_int z); simpl; auto; try contradiction; exfalso.
  assert (Hd : Zdigits2 z <= 64).
  { destruct z as [| p | p]; simpl; [lia | |].
    - apply (Zdigits2_of_lt_pow2 (Zpos p)); lia.
    - apply (Zdigits2_of_lt_pow2 (Zpos p)); lia. }
  unfold emax in H. lia.
Qed.

Lemma fmul_finite_spec (sx sy : bool) (mx my : positive) (ex ey : Z) :
  match fmul (S754_finite sx mx ex) (S754_finite sy my ey) with
  | S754_zero _ => True
  | S754_finite _ m _ => Zpos (digits2_pos m) <= prec
  | S754_infinity _ => True
  | S754_nan => False
  end.
Proof.
  unfold fmul, SFmul.
  pose proof (binary_round_aux_spec (xorb sx sy) (Zpos (mx * my)) (ex + ey) loc_Exact
                ltac:(lia)) as H.
  destruct (binary_round_aux prec emax (xorb sx sy) (Zpos (mx * my)) (ex + ey) loc_Exact);
    tauto.
Qed.

Lemma fmul_wf (a b : float) : wf32 (fmul a b) = true.
Proof.
  destruct a as [sa | sa | | sa ma ea], b as [sb | sb | | sb mb eb]; try reflexivity.
  pose proof (fmul_finite_spec sa sb ma mb ea eb) as H.
  destruct (fmul _ _); simpl; auto. now apply Z.leb_le.
Qed.

Lemma fmul_finite_not_nan (a b : float) :
  is_finite a = true -> is_finite b = true -> is_nan (fmul a b) = false.
Proof.
  destruct a as [sa | sa | | sa ma ea], b as [sb | sb | | sb mb eb];
    try discriminate; try reflexivity.
  intros _ _. pose proof (fmul_finite_spec sa sb ma mb ea eb) as H.
  destruct (fmul _ _); simpl; auto. contradiction.
Qed.

Lemma fmul_nonzero_not_nan (a : float) (s : bool) (m : positive) (e : Z) :
  is_nan a = false -> is_nan (fmul a (S754_finite s m e)) = false.
Proof.
  destruct a as [sa | sa | | sa ma ea]; try discriminate; try reflexivity.
  intros _. apply fmul_finite_not_nan; reflexivity.
Qed.

Lemma fadd_finite_spec (sx sy : bool) (mx my : positive) (ex ey : Z) :
  match fadd (S754_finite sx mx ex) (S754_finite sy my ey) with
  | S754_zero _ => True
  | S754_finite _ m _ => Zpos (digits2_pos m) <= prec
  | S754_infinity _ => True
  | S754_nan => False
  end.
Proof.
  unfold fadd, SFadd.
  match goal with |- context [binary_normalize prec emax ?m ?e ?z] =>
    pose proof (binary_normalize_spec m e z) as H;
    destruct (binary_normalize prec emax m e z) end; tauto.
Qed.

Lemma fsub_finite_spec (sx sy : bool) (mx my : positive) (ex ey : Z) :
  match fsub (S754_finite sx mx ex) (S754_finite sy my ey) with
  | S754_zero _ => True
  | S754_finite _ m _ => Zpos (digits2_pos m) <= prec
  | S754_infinity _ => True
  | S754_nan => False
  end.
Proof.
  unfold fsub, SFsub.
  match goal with |- context [binary_normalize prec emax ?m ?e ?z] =>
    pose proof (binary_normalize_spec m e z) as H;
    destruct (binary_normalize prec emax m e z) end; tauto.
Qed.

Lemma fadd_wf (a b : float) : wf32 a = true -> wf32 b = true -> wf32 (fadd a b) = true.
Proof.
  destruct a as [sa | sa | | sa ma ea], b as [sb | sb | | sb mb eb];
    try (destruct sa, sb; simpl; auto; fail); try (simpl; auto; fail).
  intros _ _. pose proof (fadd_finite_spec sa sb ma mb ea eb) as H.
  destruct (fadd _ _); simpl; auto. now apply Z.leb_le.
Qed.

Lemma fsub_wf (a b : float) : wf32 a = true -> wf32 b = true -> wf32 (fsub a b) = true.
Proof.
  destruct a as [sa | sa | | sa ma ea], b as [sb | sb | | sb mb eb];
    try (destruct sa, sb; simpl; auto; fail); try (simpl; auto; fail).
  intros _ _. pose proof (fsub_finite_spec sa sb ma mb ea eb) as H.
  destruct (fsub _ _); simpl; auto. now apply Z.leb_le.
Qed.

Lemma fadd_finite_not_nan (a b : float) :
  is_finite a = true -> is_nan b = false -> is_nan (fadd a b) = false.
Proof.
  destruct a as [sa | sa | | sa ma ea], b as [sb | sb | | sb mb eb];
    try discriminate; try reflexivity; intros _ _.
  - destruct sa, sb; reflexivity.
  - pose proof (fadd_finite_spec sa sb ma mb ea eb) as H.
    destruct (fadd _ _); simpl; auto. contradiction.
Qed.

Lemma fdiv_finite_spec (sx sy : bool) (mx my : positive) (ex ey : Z) :
  match fdiv (S754_finite sx mx ex) (S754_finite sy my ey) with
  | S754_zero _ => True
  | S754_finite s m _ => s = xorb sx sy /\ Zpos (digits2_pos m) <= prec
  | S754_infinity _ =>
      emax - prec < ex - ey \/ emax <= Zpos (digits2_pos mx) + ex - ey
  | S754_nan => False
  end.
Proof.
  unfold fdiv, SFdiv, SFdiv_core_binary. cbv zeta.
  set (e' := Z.min (fexp prec emax (Zdigits2 (Zpos mx) + ex - (Zdigits2 (Zpos my) + ey)))
                   (ex - ey)).
  set (m' := match ex - ey - e' with
             | 0 => Zpos mx
             | Zpos _ => Z.shiftl (Zpos mx) (ex - ey - e')
             | Zneg _ => 0
             end).
  assert (Hs : 0 <= ex - ey - e') by (unfold e'; lia).
  assert (Hm' : 0 < m' /\ Zdigits2 m' = Zpos (digits2_pos mx) + (ex - ey - e')).
  { unfold m'. destruct (ex - ey - e') as [| p | p] eqn:E; [simpl; lia | | lia].
    rewrite Zdigits2_shiftl by lia. split; [| reflexivity].
    rewrite Z.shiftl_mul_pow2 by lia. pose proof (Z.pow_pos_nonneg 2 (Zpos p)). nia. }
  pose proof (Z_div_mod m' (Zpos my) ltac:(lia)) as Hdm.
  destruct (Z.div_eucl m' (Zpos my)) as [q r].
  destruct Hdm as [Hq Hr].
  assert (Hq0 : 0 <= q <= m') by nia.
  pose proof (binary_round_aux_spec (xorb sx sy) q e' (new_location (Zpos my) r)
                (proj1 Hq0)) as H.
  pose proof (Zdigits2_le q m' Hq0) as Hd.
  destruct (binary_round_aux prec emax (xorb sx sy) q e' (new_location (Zpos my) r));
    auto; [| tauto].
  destruct H as [_ H]. unfold e' in *. lia.
Qed.

Lemma fdiv_wf (a b : float) : wf32 (fdiv a b) = true.
Proof.
  destruct a as [sa | sa | | sa ma ea], b as [sb | sb | | sb mb eb]; try reflexivity.
  pose proof (fdiv_finite_spec sa sb ma mb ea eb) as H.
  destruct (fdiv _ _); simpl; auto. apply Z.leb_le. tauto.
Qed.

(** ** Comparisons *)

Lemma SFcompare_antisym (a b : float) :
  SFcompare b a = option_map CompOpp (SFcompare a b).
Proof.
  destruct a as [sa | sa | | sa ma ea], b as [sb | sb | | sb mb eb]; simpl;
    try reflexivity; try (destruct sa; reflexivity); try (destruct sb; reflexivity);
    try (destruct sa, sb; reflexivity).
  pose proof (Pos.compare_cont_antisym ma mb Eq) as Hp. simpl in Hp.
  rewrite (Z.compare_antisym ea eb), <- Hp.
  destruct sa, sb, (ea ?= eb), (Pos.compare_cont Eq ma mb); reflexivity.
Qed.

Lemma SFcompare_not_nan (a b : float) :
  is_nan a = false -> is_nan b = false -> exists c, SFcompare a b = Some c.
Proof.
  destruct a, b; simpl; try discriminate; eauto.
Qed.

(** [!(a > b)] on numbers is [a <= b]. *)
Lemma not_fgt_fle (a b : float) :
  is_nan a = false -> is_nan b = false -> fgt a b = false -> fle a b = true.
Proof.
  intros Ha Hb. unfold fgt, fle, SFltb, SFleb.
  rewrite (SFcompare_antisym a b).
  destruct (SFcompare_not_nan a b Ha Hb) as [c ->]. simpl.
  destruct c; simpl; congruence.
Qed.

Lemma not_flt_fle (a b : float) :
  is_nan a = false -> is_nan b = false -> flt a b = false -> fle b a = true.
Proof.
  intros Ha Hb H. apply not_fgt_fle; assumption.
Qed.

Lemma fle_not_flt (a b : float) : fle a b = true -> flt b a = false.
Proof.
  unfold fle, flt, SFleb, SFltb. rewrite (SFcompare_antisym a b).
  destruct (SFcompare a b) as [[] |]; simpl; congruence.
Qed.

Lemma fle_not_nan_l (a b : float) : fle a b = true -> is_nan a = false.
Proof. destruct a, b; simpl; auto; discriminate. Qed.

Lemma fle_not_nan_r (a b : float) : fle a b = true -> is_nan b = false.
Proof. destruct a, b; simpl; auto; discriminate. Qed.

(** The two-sided clamp of the sketches, between any two ordered numbers. *)
Lemma clamp_between (x lo hi : float) :
  is_nan x = false -> fle lo hi = true -> fle lo lo = true -> fle hi hi = true ->
  let x1 := if fgt x hi then hi else x in
  let y := if flt x1 lo then lo else x1 in
  fle lo y = true /\ fle y hi = true.
Proof.
  intros Hx Hlh Hll Hhh.
  pose proof (fle_not_nan_l _ _ Hlh) as Hlo. pose proof (fle_not_nan_r _ _ Hlh) as Hhi.
  cbv zeta. destruct (fgt x hi) eqn:E1.
  - rewrite (fle_not_flt _ _ Hlh). auto.
  - destruct (flt x lo) eqn:E2; [auto |].
    split; [apply not_flt_fle | apply not_fgt_fle]; assumption.
Qed.

Lemma abs_le_between (x : float) (m : positive) (e : Z) :
  fle (S754_finite true m e) x = true ->
  fle x (S754_finite false m e) = true ->
  fle (fabs x) (S754_finite false m e) = true.
Proof.
  destruct x as [s | s | | s mx ex]; simpl; try discriminate; try reflexivity.
  - destruct s; simpl; intros; discriminate.
  - destruct s; [| intros _ H; exact H].
    unfold fle, SFleb; simpl. intros H _.
    pose proof (Pos.compare_cont_antisym mx m Eq) as Hp. simpl in Hp.
    rewrite (Z.compare_antisym ex e), <- Hp in H.
    destruct (ex ?= e), (Pos.compare_cont Eq mx m); simpl in *; congruence.
Qed.

Lemma abs_le_inv (x : float) (m : positive) (e : Z) :
  fle (fabs x) (S754_finite false m e) = true ->
  fle (S754_finite true m e) x = true /\ fle x (S754_finite false m e) = true.
Proof.
  destruct x as [s | s | | s mx ex]; simpl; try discriminate.
  - intros _. split; reflexivity.
  - destruct s; [| intros H; split; [reflexivity | exact H]].
    unfold fle, SFleb; simpl. intros H. split; [| reflexivity].
    pose proof (Pos.compare_cont_antisym mx m Eq) as Hp. simpl in Hp.
    rewrite (Z.compare_antisym ex e), <- Hp.
    destruct (ex ?= e), (Pos.compare_cont Eq mx m); simpl in *; congruence.
Qed.

(** ** Truncation of a clamped value *)

Section TruncBound.

Variables (M : positive) (E : Z).
Hypothesis HE : E < 0.
Hypothesis HM : 2 ^ (prec - 1) <= Zpos M.

Lemma trunc_mag_le (m : positive) (e : Z) :
  Zpos (digits2_pos m) <= prec ->
  fle (S754_finite false m e) (S754_finite false M E) = true ->
  trunc_mag m e <= trunc_mag M E.
Proof.
  intros Hd. unfold fle, SFleb, trunc_mag; simpl.
  assert (Hm : Zpos m < 2 ^ prec)
    by (apply Zdigits2_lt_pow2; unfold prec in *; simpl; lia).
  destruct (Z.compare_spec e E) as [-> | Hlt | Hgt]; try discriminate.
  - intros H.
    assert (Hle : (m <= M)%positive).
    { unfold Pos.le, Pos.compare. destruct (Pos.compare_cont Eq m M); congruence. }
    rewrite !Z.shiftl_div_pow2 by lia.
    apply Z.div_le_mono; [apply Z.pow_pos_nonneg; lia | lia].
  - intros _.
    rewrite !Z.shiftl_div_pow2 by lia.
    replace (- e) with ((- E) + 1 + (- e + E - 1)) by lia.
    rewrite Z.pow_add_r, Z.pow_add_r by lia.
    assert (0 < 2 ^ (- E)) by (apply Z.pow_pos_nonneg; lia).
    assert (0 < 2 ^ (- e + E - 1)) by (apply Z.pow_pos_nonneg; lia).
    transitivity (Zpos m / (2 ^ (- E) * 2 ^ 1)).
    + apply Z.div_le_compat_l; [lia | nia].
    + rewrite (Z.mul_comm (2 ^ (- E))), <- Z.div_div by lia.
      apply Z.div_le_mono; [lia |].
      assert (2 ^ prec = 2 * 2 ^ (prec - 1)) by reflexivity.
      change (2 ^ 1) with 2. apply Z.div_le_upper_bound; lia.
Qed.

Lemma trunc_mag_nonneg (m : positive) (e : Z) : 0 <= trunc_mag m e.
Proof. unfold trunc_mag. apply Z.shiftl_nonneg. lia. Qed.

(** A value the comparisons place in [[-c, c]] truncates into
    [[-(int)c, (int)c]]. *)
Lemma to_int_between (y : float) :
  wf32 y = true ->
  fle (S754_finite true M E) y = true ->
  fle y (S754_finite false M E) = true ->
  - trunc_mag M E <= to_int y <= trunc_mag M E.
Proof.
  intros Hwf H1 H2.
  pose proof (abs_le_between y M E H1 H2) as Habs.
  pose proof (trunc_mag_nonneg M E) as HT.
  destruct y as [s | s | | s m e]; simpl in *; try discriminate; [lia |].
  apply Z.leb_le in Hwf.
  pose proof (trunc_mag_le m e Hwf Habs) as Hle.
  pose proof (trunc_mag_nonneg m e) as Ha.
  unfold INT_MIN, INT_MAX. destruct s; lia.
Qed.

End TruncBound.

(** ** Products *)

Lemma Zdigits2_mul (a b : positive) :
  Zdigits2 (Zpos (a * b)) <= Zpos (digits2_pos a) + Zpos (digits2_pos b).
Proof.
  apply Zdigits2_of_lt_pow2; [| lia].
  split; [lia |].
  pose proof (Zdigits2_lt_pow2 (Zpos a) (Zpos (digits2_pos a)) ltac:(lia) ltac:(lia)
                ltac:(simpl; lia)) as Ha.
  pose proof (Zdigits2_lt_pow2 (Zpos b) (Zpos (digits2_pos b)) ltac:(lia) ltac:(lia)
                ltac:(simpl; lia)) as Hb.
  rewrite Z.pow_add_r by lia. rewrite Pos2Z.inj_mul. nia.
Qed.

Lemma fmul_finite_overflow (sx sy : bool) (mx my : positive) (ex ey : Z) :
  match fmul (S754_finite sx mx ex) (S754_finite sy my ey) with
  | S754_zero _ => True
  | S754_finite s _ _ => s = xorb sx sy
  | S754_infinity _ =>
      emax - prec < ex + ey \/
      emax <= Zpos (digits2_pos mx) + Zpos (digits2_pos my) + ex + ey
  | S754_nan => False
  end.
Proof.
  unfold fmul, SFmul.
  pose proof (binary_round_aux_spec (xorb sx sy) (Zpos (mx * my)) (ex + ey) loc_Exact
                ltac:(lia)) as H.
  pose proof (Zdigits2_mul mx my) as Hd.
  destruct (binary_round_aux prec emax (xorb sx sy) (Zpos (mx * my)) (ex + ey) loc_Exact);
    try tauto.
  destruct H as [_ [H | H]]; [now left | right; lia].
Qed.

(** * The experiment sketch: control step and handlers *)

Lemma TrySample_esc (now raw : Z) (s : state) : esc (TrySample now raw s) = esc s.
Proof.
  unfold TrySample.
  destruct (negb _); [reflexivity |].
  destruct (now <? _); [reflexivity |].
  destruct (_ >=? _); reflexivity.
Qed.

Lemma TrySample_pid (now raw : Z) (s : state) : pid (TrySample now raw s) = pid s.
Proof.
  unfold TrySample.
  destruct (negb _); [reflexivity |].
  destruct (now <? _); [reflexivity |].
  destruct (_ >=? _); reflexivity.
Qed.

Lemma TrySample_tuning (now raw : Z) (s : state) : tuning (TrySample now raw s) = tuning s.
Proof.
  unfold TrySample.
  destruct (negb _); [reflexivity |].
  destruct (now <? _); [reflexivity |].
  destruct (_ >=? _); reflexivity.
Qed.

Lemma ControlStepPID_out_of_range (raw now : Z) (s : state) :
  out_of_range raw = true -> ControlStepPID raw now s = HoldEscMin s.
Proof. intros H. unfold ControlStepPID. now rewrite H. Qed.

Lemma ControlStepPID_in_range (raw now : Z) (s : state) :
  out_of_range raw = false ->
  ControlStepPID raw now s
  = with_esc (drive_outputs (snd (pid_terms raw now (tuning s) (pid s))) (esc s))
      (with_pid (fst (pid_terms raw now (tuning s) (pid s))) s).
Proof. intros H. unfold ControlStepPID. now rewrite H. Qed.



(** C7. A start request while a run is on is answered
    [{"ok":false,"msg":"already_running"}] and changes nothing: the state
    after the handler is the state before it (phase, PID block, sample
    count, commands and all the rest); a start that is accepted answers
    differently.  Both versions of the sketch. *)
Theorem start_while_running_rejected (t0 t1 t2 : Z) (s : state) :
  ExperimentRunning (experiment s) = true ->
  HandleStart t0 t1 t2 s = (RespStart false "already_running", s) /\
  RigV1.HandleStart t0 t2 s = (RespStart false "already_running", s) /\
  (forall s0, ExperimentRunning (experiment s0) = false ->
              fst (HandleStart t0 t1 t2 s0) = RespStart true "started").
Proof.
  intros Hrun. unfold HandleStart, RigV1.HandleStart. rewrite Hrun.
  repeat split. intros s0 H0. now rewrite H0.
Qed.

Lemma start_while_running_rejected_witness :
  ExperimentRunning (experiment high_gain_run) = true /\
  HandleStart 2000 2000 2000 high_gain_run
  = (RespStart false "already_running", high_gain_run).
Proof.
  split; [reflexivity |].
  exact (proj1 (start_while_running_rejected 2000 2000 2000 high_gain_run eq_refl)).
Defined.

(** A [/set] request is never refused.  A requested gain below 0 or above
    its upper bound (5 for Kp, 1 for Ki, 2 for Kd), as the comparisons of
    [constrain] decide it, is stored as the bound it crossed, which
    differs from the requested value, and a [/state] request served next
    prints the stored bound, with 3 decimals (4 for Ki). *)
Lemma set_clamps_and_reads_back
    (g : gain) (v : float) (a : SetArgs) (s : state) (adc now : Z) :
  gain_arg g a = Some v ->
  out_of_bounds g v = true ->
  let s' := snd (HandleSet a s) in
  fst (HandleSet a s) = RespOk /\
  gain_stored g (tuning s') = (if flt v f0 then f0 else gain_hi g) /\
  gain_stored g (tuning s') <> v /\
  fle f0 (gain_stored g (tuning s')) = true /\
  fle (gain_stored g (tuning s')) (gain_hi g) = true /\
  forall fmt,
    gain_reported fmt g (HandleState adc now s')
    = Some (fmt (gain_stored g (tuning s')) (gain_places g)).
Proof.
  intros Harg Hout. cbv zeta. split; [reflexivity |].
  assert (Hst : gain_stored g (tuning (snd (HandleSet a s))) = constrain v f0 (gain_hi g)).
  { destruct g; simpl in *; rewrite Harg; reflexivity. }
  assert (Hrep : forall fmt,
             gain_reported fmt g (HandleState adc now (snd (HandleSet a s)))
             = Some (fmt (gain_stored g (tuning (snd (HandleSet a s)))) (gain_places g)))
    by (intros fmt; destruct g; reflexivity).
  rewrite Hst in *. unfold constrain, out_of_bounds in *.
  destruct (flt v f0) eqn:Elo; simpl in Hout.
  - repeat split; try (destruct g; reflexivity); try exact Hrep.
    intros <-. discriminate Elo.
  - rewrite Hout in *. repeat split; try (destruct g; reflexivity); try exact Hrep.
    intros <-. destruct g; discriminate Hout.
Qed.

Lemma set_clamps_and_reads_back_example (fmt : float -> Z -> string) :
  let a := {| arg_kp := None; arg_ki := Some (of_int 7); arg_kd := None;
              arg_invert := None |} in
  out_of_bounds GainKi (of_int 7) = true /\
  KiUsPerCountSec (tuning (snd (HandleSet a (setup boot)))) = f1 /\
  gain_reported fmt GainKi (HandleState 660 100 (snd (HandleSet a (setup boot))))
  = Some (fmt f1 4).
Proof.
  cbv zeta. split; [reflexivity |].
  pose proof (set_clamps_and_reads_back GainKi (of_int 7)
                {| arg_kp := None; arg_ki := Some (of_int 7); arg_kd := None;
                   arg_invert := None |} (setup boot) 660 100 eq_refl eq_refl) as H.
  cbv zeta in H. destruct H as (_ & H1 & _ & _ & _ & H2).
  split; [exact H1 |]. rewrite H2. reflexivity.
Qed.

(** C8. The claim fails on a NaN gain.  A [/set] request that carries NaN
    as integral gain is answered ok, and the gain stored is that NaN: it
    is not one of the two bounds and not inside [[0, 1]], since both
    comparisons of [constrain] are false on it.  The [/state] request
    served next prints the stored NaN, which is the requested value,
    whatever text [String(x, 4)] gives it. *)
Theorem nan_gain_stored_unclamped (s : state) (adc now : Z) :
  let s' := snd (HandleSet nan_ki_args s) in
  gain_arg GainKi nan_ki_args = Some S754_nan /\
  fst (HandleSet nan_ki_args s) = RespOk /\
  gain_stored GainKi (tuning s') = S754_nan /\
  gain_stored GainKi (tuning s') <> f0 /\
  gain_stored GainKi (tuning s') <> gain_hi GainKi /\
  fle f0 (gain_stored GainKi (tuning s')) = false /\
  fle (gain_stored GainKi (tuning s')) (gain_hi GainKi) = false /\
  forall fmt,
    gain_reported fmt GainKi (HandleState adc now s') = Some (fmt S754_nan 4).
Proof.
  cbv zeta.
  assert (Hst : gain_stored GainKi (tuning (snd (HandleSet nan_ki_args s))) = S754_nan)
    by reflexivity.
  split; [reflexivity |]. split; [reflexivity |]. split; [exact Hst |].
  rewrite Hst. split; [discriminate |]. split; [discriminate |].
  split; [reflexivity |]. split; [reflexivity |].
  intros fmt. reflexivity.
Qed.

(** C2, counterexample.  In the experiment sketch, with Kp = 5 and the
    measurement at 700 the un-integrated output is -200, beyond the
    saturation limit, and the control step still moves the integral
    (from 0 to -1.6). *)
Lemma integral_moves_at_saturation : ~ integral_held_near_saturation.
Proof.
  intros H. specialize (H 700 1400 high_gain_run eq_refl).
  vm_compute in H. specialize (H eq_refl). discriminate H.
Qed.

(** C2, amended.  The serial-only sketch integrates conditionally: when
    [|uNoI| < DeltaMaxUs - 5] fails its control step leaves [IntUs]
    unchanged, and when it holds [IntUs] gets [Ki*err*dt] added and is
    clamped to [±IntegralMaxUs].  The experiment sketch has no such
    condition: every in-range control step adds [Ki*err*dt] and clamps. *)
Theorem integration_policy
    (now raw : Z) (s : Standalone.state) (raw' now' : Z) (r : state) :
  (Standalone.allowIntegrate (Standalone.u_no_i now raw s) = false ->
   Standalone.IntUs (Standalone.ControlStepPID now raw s) = Standalone.IntUs s) /\
  (Standalone.allowIntegrate (Standalone.u_no_i now raw s) = true ->
   Standalone.IntUs (Standalone.ControlStepPID now raw s)
   = clamp_sym
       (fadd (Standalone.IntUs s)
             (fmul (fmul Standalone.KiUsPerCountSec
                         (of_int (Standalone.error_of
                                    (Standalone.filter_pot raw (Standalone.PotFiltered s)))))
                   (Standalone.dt_sec now (Standalone.LastTsMs s))))
       Standalone.IntegralMaxUs) /\
  (out_of_range raw' = false ->
   IntUs (pid (ControlStepPID raw' now' r))
   = clamp_sym
       (fadd (IntUs (pid r))
             (fmul (fmul (KiUsPerCountSec (tuning r))
                         (of_int (error_of (InvertDirection (tuning r))
                                           (filter_pot raw' (PotFiltered (pid r))))))
                   (dt_sec now' (LastTsMs (pid r)))))
       IntegralMaxUs).
Proof.
  split; [| split].
  - intros H. unfold Standalone.ControlStepPID. cbv zeta. simpl. now rewrite H.
  - intros H. unfold Standalone.ControlStepPID. cbv zeta. simpl. now rewrite H.
  - intros H. rewrite ControlStepPID_in_range by assumption. reflexivity.
Qed.

Lemma integration_policy_witness :
  let s := Standalone.setup 5000 Standalone.boot in
  Standalone.allowIntegrate (Standalone.u_no_i 5010 1023 s) = false /\
  Standalone.IntUs (Standalone.ControlStepPID 5010 1023 s) = Standalone.IntUs s /\
  out_of_range 700 = false /\
  IntUs (pid (ControlStepPID 700 1400 high_gain_run))
  = clamp_sym
      (fadd (IntUs (pid high_gain_run))
            (fmul (fmul (KiUsPerCountSec (tuning high_gain_run))
                        (of_int (error_of (InvertDirection (tuning high_gain_run))
                                          (filter_pot 700 (PotFiltered (pid high_gain_run))))))
                  (dt_sec 1400 (LastTsMs (pid high_gain_run)))))
      IntegralMaxUs.
Proof.
  cbv zeta.
  pose proof (integration_policy 5010 1023 (Standalone.setup 5000 Standalone.boot)
                700 1400 high_gain_run) as H.
  destruct H as (H1 & _ & H3).
  assert (E : Standalone.allowIntegrate
                (Standalone.u_no_i 5010 1023 (Standalone.setup 5000 Standalone.boot))
              = false) by (vm_compute; reflexivity).
  split; [exact E |]. split; [exact (H1 E) |].
  split; [reflexivity |]. exact (H3 eq_refl).
Defined.

(** C6, counterexample.  After arming the filtered measurement is 0, not
    the setpoint, and a start served then leaves it at 0. *)
Lemma pot_filter_not_reset :
  ~ pot_filter_reset /\
  PotFiltered (pid (setup boot)) = 0 /\
  PotFiltered (pid (snd (HandleStart 1000 1000 1390 (setup boot)))) = 0.
Proof.
  split; [| split; reflexivity].
  intros [H _]. discriminate H.
Qed.

Lemma HandleStart_PotFiltered (t0 t1 t2 : Z) (s : state) :
  PotFiltered (pid (snd (HandleStart t0 t1 t2 s))) = PotFiltered (pid s).
Proof.
  unfold HandleStart. destruct (ExperimentRunning (experiment s)); reflexivity.
Qed.

(** C6, amended.  In the serial-only sketch [setup] ends by setting the
    filtered measurement to the setpoint.  In the experiment sketch it
    starts at 0, neither [setup] (arming) nor [HandleStart] writes it, so
    it keeps its value from one run to the next; an in-range control step
    that finds it at 0 seeds it from the raw measurement before smoothing,
    and every in-range step stores the smoothed value. *)
Theorem pot_filter_persists
    (now : Z) (s0 : Standalone.state) (t0 t1 t2 raw now' : Z) (s : state) :
  Standalone.PotFiltered (Standalone.setup now s0) = Standalone.PotCenter /\
  PotFiltered (pid boot) = 0 /\
  PotFiltered (pid (setup s)) = PotFiltered (pid s) /\
  PotFiltered (pid (snd (HandleStart t0 t1 t2 s))) = PotFiltered (pid s) /\
  (out_of_range raw = false ->
   PotFiltered (pid (ControlStepPID raw now' s)) = filter_pot raw (PotFiltered (pid s))) /\
  filter_pot raw 0 = filter_pot raw raw.
Proof.
  split; [reflexivity |]. split; [reflexivity |]. split; [reflexivity |].
  split; [apply HandleStart_PotFiltered |]. split.
  - intros H. rewrite ControlStepPID_in_range by assumption. reflexivity.
  - unfold filter_pot. simpl. destruct (raw =? 0) eqn:E; [| reflexivity].
    apply Z.eqb_eq in E. now subst.
Qed.

Lemma pot_filter_persists_witness :
  out_of_range 700 = false /\
  PotFiltered (pid (ControlStepPID 700 1400 high_gain_run))
  = filter_pot 700 (PotFiltered (pid high_gain_run)) /\
  PotFiltered (pid (snd (HandleStart 1000 1000 1390 (setup boot))))
  = PotFiltered (pid (setup boot)).
Proof.
  pose proof (pot_filter_persists 0 Standalone.boot 1000 1000 1390 700 1400 high_gain_run)
    as (_ & _ & _ & _ & H5 & _).
  pose proof (pot_filter_persists 0 Standalone.boot 1000 1000 1390 700 1400 (setup boot))
    as (_ & _ & _ & H4 & _ & _).
  split; [reflexivity |]. split; [exact (H5 eq_refl) | exact H4].
Defined.

(** * Slew limiting *)

Lemma i32_small (z : Z) : -2147483648 <= z < 2147483648 -> i32 z = z.
Proof.
  intros H. unfold i32.
  change (2 ^ 31) with 2147483648. change (2 ^ 32) with 4294967296.
  rewrite Z.mod_small; lia.
Qed.

Lemma ClampInt_spec (v lo hi : Z) :
  lo <= hi ->
  lo <= ClampInt v lo hi <= hi /\
  (lo <= v <= hi -> ClampInt v lo hi = v) /\
  (v < lo -> ClampInt v lo hi = lo) /\
  (hi < v -> ClampInt v lo hi = hi).
Proof.
  intros H. unfold ClampInt. rewrite Z.gtb_ltb.
  destruct (Z.ltb_spec v lo), (Z.ltb_spec hi v); lia.
Qed.

Lemma ClampInt_pulse (v : Z) : PulseMinUs <= ClampInt v PulseMinUs PulseMaxUs <= PulseMaxUs.
Proof. apply ClampInt_spec. unfold PulseMinUs, PulseMaxUs. lia. Qed.

(** One slew-limited move between two values of the pulse range: at most
    [SlewStepUs] away from where it starts, never past the target, and
    strictly closer unless already there. *)
Lemma slew_toward_spec (t c : Z) :
  PulseMinUs <= t <= PulseMaxUs ->
  PulseMinUs <= c <= PulseMaxUs ->
  Z.abs (slew_toward t c - c) <= SlewStepUs /\
  PulseMinUs <= slew_toward t c <= PulseMaxUs /\
  Z.abs (t - slew_toward t c) <= Z.abs (t - c) /\
  (c <> t -> Z.abs (t - slew_toward t c) < Z.abs (t - c)).
Proof.
  unfold slew_toward, PulseMinUs, PulseMaxUs. intros Ht Hc.
  rewrite (i32_small (t - c)) by lia.
  pose proof (ClampInt_spec (t - c) (- SlewStepUs) SlewStepUs) as (Hr & Hin & Hlo & Hhi);
    [unfold SlewStepUs; lia |].
  unfold SlewStepUs in *.
  rewrite i32_small by lia. lia.
Qed.

Lemma slew_iter_spec (t1 t2 : Z) (e : Esc) :
  PulseMinUs <= t1 <= PulseMaxUs ->
  PulseMinUs <= t2 <= PulseMaxUs ->
  cmds_in_range e ->
  let e' := fst (slew_iter t1 t2 e) in
  cmds_in_range e' /\
  EscOut e' = (CmdUs1 e', CmdUs2 e') :: EscOut e /\
  Z.abs (CmdUs1 e' - CmdUs1 e) <= SlewStepUs /\
  Z.abs (CmdUs2 e' - CmdUs2 e) <= SlewStepUs /\
  (snd (slew_iter t1 t2 e) = true -> CmdUs1 e' = t1 /\ CmdUs2 e' = t2) /\
  (snd (slew_iter t1 t2 e) = false ->
   (Z.to_nat (Z.abs (t1 - CmdUs1 e') + Z.abs (t2 - CmdUs2 e'))
    < Z.to_nat (Z.abs (t1 - CmdUs1 e) + Z.abs (t2 - CmdUs2 e)))%nat).
Proof.
  intros Ht1 Ht2 [Hc1 Hc2]. unfold slew_iter, cmds_in_range. simpl.
  pose proof (slew_toward_spec t1 (CmdUs1 e) Ht1 Hc1) as (A1 & B1 & C1 & D1).
  pose proof (slew_toward_spec t2 (CmdUs2 e) Ht2 Hc2) as (A2 & B2 & C2 & D2).
  unfold SlewStepUs in *.
  destruct (Z.eqb_spec (CmdUs1 e) t1) as [E1 | E1],
           (Z.eqb_spec (CmdUs2 e) t2) as [E2 | E2]; simpl;
    repeat split; try lia; try discriminate; intros _;
    try specialize (D1 E1); try specialize (D2 E2); lia.
Qed.

(** [SlewBothTo] reaches its targets within the fuel given by the loop
    variant, through pulses that form a slew chain from the commands it
    starts with. *)
Lemma slew_loop_spec (t1 t2 : Z) :
  PulseMinUs <= t1 <= PulseMaxUs ->
  PulseMinUs <= t2 <= PulseMaxUs ->
  forall (fuel : nat) (e : Esc),
    cmds_in_range e ->
    (Z.to_nat (Z.abs (t1 - CmdUs1 e) + Z.abs (t2 - CmdUs2 e)) < fuel)%nat ->
    exists l : list (Z * Z),
      EscOut (slew_loop fuel t1 t2 e) = rev l ++ EscOut e /\
      slew_chain (CmdUs1 e, CmdUs2 e) l /\
      last l = Some (t1, t2) /\
      CmdUs1 (slew_loop fuel t1 t2 e) = t1 /\
      CmdUs2 (slew_loop fuel t1 t2 e) = t2.
Proof.
  intros Ht1 Ht2. induction fuel as [| fuel IH]; intros e He Hfuel; [lia |].
  cbn [slew_loop]. pose proof (slew_iter_spec t1 t2 e Ht1 Ht2 He) as H. cbv zeta in H.
  destruct (slew_iter t1 t2 e) as [e' done]. cbn [fst snd] in H.
  destruct H as (Hr & Hout & Hd1 & Hd2 & Hdone & Hmore).
  destruct done.
  - destruct (Hdone eq_refl) as [E1 E2].
    exists [(t1, t2)]. simpl. rewrite Hout, E1, E2.
    repeat split; rewrite <- ?E1, <- ?E2; assumption.
  - specialize (Hmore eq_refl).
    destruct (IH e' Hr ltac:(lia)) as (l & Hl & Hch & Hlast & E1 & E2).
    exists ((CmdUs1 e', CmdUs2 e') :: l). simpl.
    rewrite Hl, Hout, <- app_assoc. simpl.
    repeat split; try assumption.
    destruct l as [| x l]; [discriminate Hlast | exact Hlast].
Qed.

Lemma SlewBothTo_esc_spec (target1 target2 : Z) (e : Esc) :
  cmds_in_range e ->
  exists l : list (Z * Z),
    EscOut (SlewBothTo_esc target1 target2 e) = rev l ++ EscOut e /\
    slew_chain (CmdUs1 e, CmdUs2 e) l /\
    last l = Some (ClampInt target1 PulseMinUs PulseMaxUs,
                   ClampInt target2 PulseMinUs PulseMaxUs) /\
    CmdUs1 (SlewBothTo_esc target1 target2 e) = ClampInt target1 PulseMinUs PulseMaxUs /\
    CmdUs2 (SlewBothTo_esc target1 target2 e) = ClampInt target2 PulseMinUs PulseMaxUs.
Proof.
  intros He. unfold SlewBothTo_esc.
  apply slew_loop_spec; auto using ClampInt_pulse.
Qed.

Lemma drive_outputs_spec (u : float) (e : Esc) :
  cmds_in_range e ->
  let e' := drive_outputs u e in
  cmds_in_range e' /\
  Z.abs (CmdUs1 e' - CmdUs1 e) <= SlewStepUs /\
  Z.abs (CmdUs2 e' - CmdUs2 e) <= SlewStepUs /\
  EscOut e' = (CmdUs1 e', CmdUs2 e') :: EscOut e.
Proof.
  intros [H1 H2]. unfold drive_outputs, cmds_in_range. simpl.
  pose proof (slew_toward_spec _ (CmdUs1 e)
                (ClampInt_pulse (i32 (BaseUs + to_int u))) H1) as (A1 & B1 & _).
  pose proof (slew_toward_spec _ (CmdUs2 e)
                (ClampInt_pulse (i32 (BaseUs - to_int u))) H2) as (A2 & B2 & _).
  repeat split; assumption || apply B1 || apply B2.
Qed.

Lemma HoldEscMin_in_range (e : Esc) : cmds_in_range (HoldEscMin_esc e).
Proof.
  unfold cmds_in_range, HoldEscMin_esc; simpl. unfold PulseMinUs, PulseMaxUs. lia.
Qed.

Lemma ControlStepPID_experiment (raw now : Z) (s : state) :
  experiment (ControlStepPID raw now s) = experiment s.
Proof.
  unfold ControlStepPID. destruct (out_of_range raw); [reflexivity |].
  destruct (pid_terms _ _ _ _); reflexivity.
Qed.

Lemma ControlStepPID_samples (raw now : Z) (s : state) :
  samples (ControlStepPID raw now s) = samples s.
Proof.
  unfold ControlStepPID. destruct (out_of_range raw); [reflexivity |].
  destruct (pid_terms _ _ _ _); reflexivity.
Qed.

Lemma ControlStepPID_tuning (raw now : Z) (s : state) :
  tuning (ControlStepPID raw now s) = tuning s.
Proof.
  unfold ControlStepPID. destruct (out_of_range raw); [reflexivity |].
  destruct (pid_terms _ _ _ _); reflexivity.
Qed.

Lemma ControlStepPID_in_range_cmds (raw now : Z) (s : state) :
  cmds_in_range (esc s) -> cmds_in_range (esc (ControlStepPID raw now s)).
Proof.
  intros H. unfold ControlStepPID. destruct (out_of_range raw).
  - apply HoldEscMin_in_range.
  - destruct (pid_terms _ _ _ _) as [p' u]. simpl.
    apply (drive_outputs_spec u (esc s) H).
Qed.

Lemma TrySample_running (now raw : Z) (s : state) :
  ExperimentRunning (experiment (TrySample now raw s)) = ExperimentRunning (experiment s).
Proof.
  unfold TrySample.
  destruct (negb _); [reflexivity |].
  destruct (now <? _); [reflexivity |].
  destruct (_ >=? _); reflexivity.
Qed.

Lemma HandleStart_in_range (t0 t1 t2 : Z) (s : state) :
  cmds_in_range (esc s) -> cmds_in_range (esc (snd (HandleStart t0 t1 t2 s))).
Proof.
  intros H. unfold HandleStart.
  destruct (ExperimentRunning (experiment s)); [exact H |]. simpl.
  destruct (SlewBothTo_esc_spec BaseUs BaseUs (esc s) H) as (l & _ & _ & _ & E1 & E2).
  unfold cmds_in_range. rewrite E1, E2. split; apply ClampInt_pulse.
Qed.

Lemma ServiceWeb_in_range (q : option request) (s : state) :
  cmds_in_range (esc s) -> cmds_in_range (esc (ServiceWeb q s)).
Proof.
  intros H. destruct q as [[| adc now | a | t0 t1 t2 |] |]; simpl; try exact H.
  apply HandleStart_in_range, H.
Qed.

(** In every reachable state the commands are inside the pulse range, and
    outside a run both are at [PulseMinUs]. *)
Lemma reachable_cmds (s : state) :
  reachable s ->
  cmds_in_range (esc s) /\
  (ExperimentRunning (experiment s) = false ->
   CmdUs1 (esc s) = PulseMinUs /\ CmdUs2 (esc s) = PulseMinUs).
Proof.
  induction 1 as [| q r s Hs [IH _]].
  - split; [apply HoldEscMin_in_range | now intros _].
  - unfold loop. destruct (ExperimentRunning (experiment s)) eqn:Hrun; simpl negb; cbv iota.
    + unfold running_step.
      pose proof (ControlStepPID_in_range_cmds (adc_ctrl r) (ms_ctrl r) s IH) as H1.
      destruct (run_elapsed _ _).
      * split; [apply HoldEscMin_in_range | now intros _].
      * rewrite TrySample_esc, TrySample_running, ControlStepPID_experiment, Hrun.
        split; [exact H1 | discriminate].
    + split; [apply HoldEscMin_in_range | now intros _].
Qed.

Lemma reachable_run_loop (rs : list Readings) :
  forall s, reachable s -> reachable (run_loop rs s).
Proof.
  induction rs as [| r rs IH]; intros s Hs; [exact Hs |].
  apply IH. now constructor.
Qed.

Lemma reachable_started : reachable started.
Proof. repeat constructor. Qed.

(** C3, counterexample.  Ten iterations into a run the commands have
    climbed from 1100 to 1140; an out-of-range reading in the next
    iteration puts them back at 1100 at once, and the run goes on. *)
Lemma interlock_breaks_slew : ~ slew_except_hard_stop.
Proof.
  intros H.
  specialize (H None (nominal 1500 200) (run_loop (ticks 1400 10 660) started)
                (reachable_run_loop _ _ reachable_started)).
  vm_compute in H. destruct (H eq_refl) as [H1 _]. apply H1. reflexivity.
Qed.

(** C3, amended.  Every slew-limited move changes each command by at most
    [SlewStepUs]: an in-range control step moves each command once, and
    the pulses [HandleStart] writes while it brings both channels to
    [BaseUs] form a slew chain from the commands it finds.  [HoldEscMin]
    does not slew: the stop at the end of a run and an out-of-range
    control step put both commands at [PulseMinUs] whatever they were. *)
Theorem slew_limited_moves (s : state) (raw now t0 t1 t2 : Z) :
  reachable s ->
  (out_of_range raw = false ->
   let s' := ControlStepPID raw now s in
   Z.abs (CmdUs1 (esc s') - CmdUs1 (esc s)) <= SlewStepUs /\
   Z.abs (CmdUs2 (esc s') - CmdUs2 (esc s)) <= SlewStepUs /\
   EscOut (esc s') = (CmdUs1 (esc s'), CmdUs2 (esc s')) :: EscOut (esc s)) /\
  (ExperimentRunning (experiment s) = false ->
   let s' := snd (HandleStart t0 t1 t2 s) in
   exists l : list (Z * Z),
     EscOut (esc s') = rev l ++ EscOut (esc s) /\
     slew_chain (CmdUs1 (esc s), CmdUs2 (esc s)) l /\
     last l = Some (BaseUs, BaseUs) /\
     CmdUs1 (esc s') = BaseUs /\ CmdUs2 (esc s') = BaseUs) /\
  (out_of_range raw = true -> parked s (ControlStepPID raw now s)) /\
  parked s (stop_run s).
Proof.
  intros Hs. destruct (reachable_cmds s Hs) as [Hr _].
  split; [| split; [| split]].
  - intros Hin. cbv zeta. rewrite ControlStepPID_in_range by assumption.
    unfold with_esc; cbn [esc].
    pose proof (drive_outputs_spec (snd (pid_terms raw now (tuning s) (pid s))) (esc s) Hr)
      as (_ & A & B & C).
    split; [exact A |]. split; [exact B | exact C].
  - intros Hidle. cbv zeta. unfold HandleStart. rewrite Hidle.
    cbn [snd]. unfold with_experiment, SlewBothTo, with_esc; cbn [esc].
    unfold with_samples, with_pid; cbn [esc].
    exact (SlewBothTo_esc_spec BaseUs BaseUs (esc s) Hr).
  - intros Hout. rewrite ControlStepPID_out_of_range by assumption. repeat split.
  - repeat split.
Qed.

Lemma slew_limited_moves_witness :
  reachable started /\ out_of_range 660 = false /\
  Z.abs (CmdUs1 (esc (ControlStepPID 660 1400 started)) - CmdUs1 (esc started))
  <= SlewStepUs /\
  reachable (setup boot) /\ ExperimentRunning (experiment (setup boot)) = false /\
  CmdUs1 (esc (snd (HandleStart 1000 1000 1390 (setup boot)))) = BaseUs.
Proof.
  pose proof (slew_limited_moves started 660 1400 0 0 0 reachable_started) as (H1 & _).
  pose proof (slew_limited_moves (setup boot) 660 1400 1000 1000 1390 reach_setup)
    as (_ & H2 & _).
  split; [exact reachable_started |]. split; [reflexivity |].
  split; [exact (proj1 (H1 eq_refl)) |].
  split; [exact reach_setup |]. split; [reflexivity |].
  destruct (H2 eq_refl) as (l & _ & _ & _ & E & _). exact E.
Defined.

(** * The integral accumulator *)

Lemma of_int_u32_shape (z : Z) :
  match of_int (u32 z) with
  | S754_zero _ => True
  | S754_finite s m e => s = false /\ Zpos (digits2_pos m) <= 24 /\ e <= 9
  | _ => False
  end.
Proof.
  assert (Hz : 0 <= u32 z < 2 ^ 32) by (unfold u32; apply Z.mod_pos_bound; lia).
  pose proof (of_int_spec (u32 z)) as H.
  assert (Hd : Zdigits2 (u32 z) <= 32) by (apply Zdigits2_of_lt_pow2; lia).
  destruct (of_int (u32 z)); auto.
  - unfold emax in H. lia.
  - destruct H as (Hs & Hm & He). unfold prec in *.
    split; [| split; [exact Hm | lia]].
    rewrite Hs. apply Z.ltb_ge. lia.
Qed.

(** The time step of the experiment sketch is a positive finite number,
    whatever the clock says. *)
Lemma dt_sec_positive (now last : Z) :
  exists (m : positive) (e : Z), dt_sec now last = S754_finite false m e.
Proof.
  unfold dt_sec.
  set (n := u32 (now - (if last =? 0 then now else last))).
  pose proof (of_int_u32_shape (now - (if last =? 0 then now else last))) as H.
  fold n in H.
  assert (Hc : exists m e, fdiv (of_int LoopDtMs) f1000 = S754_finite false m e)
    by (vm_compute; eauto).
  destruct (of_int n) as [s | s | | s m e]; try contradiction.
  - simpl. exact Hc.
  - destruct H as (-> & Hm & He).
    pose proof (fdiv_finite_spec false false m 16384000 e (-14)) as Hd.
    change (S754_finite false 16384000 (-14)) with f1000 in Hd.
    destruct (fdiv (S754_finite false m e) f1000) as [s' | s' | | s' m' e'].
    + simpl. exact Hc.
    + exfalso. unfold emax, prec in *. lia.
    + contradiction.
    + destruct Hd as [-> _]. destruct (fle _ f0); [exact Hc | eauto].
Qed.

Lemma is_finite_not_nan (x : float) : is_finite x = true -> is_nan x = false.
Proof. destruct x; simpl; congruence. Qed.

Lemma integral_bounded_finite (p : Pid) :
  integral_bounded p = true -> is_finite (IntUs p) = true.
Proof.
  unfold integral_bounded, abs_le.
  change (of_int IntegralMaxUs) with (S754_finite false 10485760 (-17)).
  destruct (IntUs p) as [s | s | |]; simpl; auto; discriminate.
Qed.

(** The clamp puts any number inside [±lim], for the two limits of the
    sketch. *)
Lemma clamp_sym_abs_le (x : float) (lim : Z) :
  lim = IntegralMaxUs \/ lim = DeltaMaxUs ->
  is_nan x = false ->
  abs_le (clamp_sym x lim) lim = true /\
  fle (of_int (i32 (- lim))) (clamp_sym x lim) = true /\
  fle (clamp_sym x lim) (of_int lim) = true.
Proof.
  intros Hlim Hx.
  assert (Hb : fle (of_int (i32 (- lim))) (clamp_sym x lim) = true /\
               fle (clamp_sym x lim) (of_int lim) = true).
  { unfold clamp_sym. apply clamp_between; [exact Hx | | |];
      destruct Hlim as [-> | ->]; reflexivity. }
  split; [| exact Hb]. destruct Hb as [H1 H2]. unfold abs_le.
  destruct Hlim as [-> | ->].
  - change (of_int IntegralMaxUs) with (S754_finite false 10485760 (-17)) in *.
    change (of_int (i32 (- IntegralMaxUs))) with (S754_finite true 10485760 (-17)) in *.
    apply abs_le_between; assumption.
  - change (of_int DeltaMaxUs) with (S754_finite false 15728640 (-17)) in *.
    change (of_int (i32 (- DeltaMaxUs))) with (S754_finite true 15728640 (-17)) in *.
    apply abs_le_between; assumption.
Qed.

Lemma clamp_sym_nan (x : float) (lim : Z) :
  is_nan (clamp_sym x lim) = false -> is_nan x = false.
Proof.
  destruct x; try reflexivity. unfold clamp_sym, fgt, flt, SFltb.
  destruct (of_int lim), (of_int (i32 (- lim))); simpl; congruence.
Qed.

Lemma clamp_sym_wf (x : float) (lim : Z) :
  wf32 x = true -> wf32 (clamp_sym x lim) = true.
Proof.
  intros H. unfold clamp_sym.
  destruct (fgt x (of_int lim)); destruct (flt _ _); auto using of_int_wf.
Qed.

Lemma i32_range (z : Z) : -2147483648 <= i32 z < 2147483648.
Proof.
  unfold i32. change (2 ^ 31) with 2147483648. change (2 ^ 32) with 4294967296.
  pose proof (Z.mod_pos_bound (z + 2147483648) 4294967296). lia.
Qed.

Lemma error_of_range (inv : bool) (pf : Z) :
  -2147483648 <= error_of inv pf < 2147483648.
Proof. unfold error_of. destruct inv; apply i32_range. Qed.

(** The integral term added in a step is a number as soon as the integral
    gain is a finite number. *)
Lemma integral_increment_not_nan (ki : float) (inv : bool) (pf now last : Z) :
  is_finite ki = true ->
  is_nan (fmul (fmul ki (of_int (error_of inv pf))) (dt_sec now last)) = false.
Proof.
  intros Hki. destruct (dt_sec_positive now last) as (m & e & ->).
  apply fmul_nonzero_not_nan, fmul_finite_not_nan; [exact Hki |].
  apply of_int_finite. pose proof (error_of_range inv pf).
  change (2 ^ 64) with 18446744073709551616. lia.
Qed.

(** Away from NaN gains the clamp does its work: a control step started
    with a finite integral gain and a bounded integral ends with a bounded
    integral. *)
Lemma ControlStepPID_integral_bounded (raw now : Z) (s : state) :
  is_finite (KiUsPerCountSec (tuning s)) = true ->
  integral_bounded (pid s) = true ->
  integral_bounded (pid (ControlStepPID raw now s)) = true.
Proof.
  intros Hki Hb. unfold ControlStepPID.
  destruct (out_of_range raw); [exact Hb |].
  unfold pid_terms, integral_bounded. simpl.
  apply clamp_sym_abs_le; [now left |].
  apply fadd_finite_not_nan; [apply integral_bounded_finite, Hb |].
  apply integral_increment_not_nan, Hki.
Qed.

Lemma constrain_finite (v lo hi : float) :
  is_nan v = false -> is_finite lo = true -> is_finite hi = true ->
  is_finite (constrain v lo hi) = true.
Proof.
  intros Hv Hlo Hhi. unfold constrain.
  destruct (flt v lo) eqn:E1; [exact Hlo |].
  destruct (fgt v hi) eqn:E2; [exact Hhi |].
  destruct v as [s | s | |]; try reflexivity; try discriminate.
  destruct s; [destruct lo | destruct hi]; simpl in *; discriminate.
Qed.

Lemma ServiceWeb_numeric (q : option request) (s : state) :
  numeric_ki q ->
  is_finite (KiUsPerCountSec (tuning s)) = true ->
  integral_bounded (pid s) = true ->
  is_finite (KiUsPerCountSec (tuning (ServiceWeb q s))) = true /\
  integral_bounded (pid (ServiceWeb q s)) = true.
Proof.
  intros Hq Hki Hb.
  destruct q as [[| adc now | a | t0 t1 t2 |] |]; simpl; auto.
  - split; [| exact Hb]. simpl in Hq.
    destruct (arg_ki a) as [v |]; [| exact Hki].
    apply constrain_finite; auto.
  - unfold HandleStart. destruct (ExperimentRunning (experiment s)); simpl; auto.
Qed.

(** The bound on the integral as an invariant: as long as every integral
    gain written is a number, [|IntUs| <= IntegralMaxUs] after [setup],
    after every iteration of [loop], hence after every control step and
    every reset of the PID block. *)
Lemma integral_bounded_numeric (s : state) :
  reachable_numeric s ->
  is_finite (KiUsPerCountSec (tuning s)) = true /\ integral_bounded (pid s) = true.
Proof.
  induction 1 as [| q r s Hs [IHk IHb] Hq].
  - split; reflexivity.
  - unfold loop. destruct (ExperimentRunning (experiment s)); simpl negb; cbv iota.
    + unfold running_step.
      assert (Hk : is_finite (KiUsPerCountSec
                     (tuning (TrySample (ms_sample r) (adc_sample r)
                                (ControlStepPID (adc_ctrl r) (ms_ctrl r) s)))) = true)
        by (now rewrite TrySample_tuning, ControlStepPID_tuning).
      assert (Hb : integral_bounded
                     (pid (TrySample (ms_sample r) (adc_sample r)
                             (ControlStepPID (adc_ctrl r) (ms_ctrl r) s))) = true)
        by (rewrite TrySample_pid; now apply ControlStepPID_integral_bounded).
      destruct (run_elapsed _ _); [| now split].
      split; [exact Hk | exact Hb].
    + exact (ServiceWeb_numeric q s Hq IHk IHb).
Qed.

(** C4, the failing run.  A [/set] request whose [ki] parses to NaN is
    stored as it is ([constrain] compares, and NaN compares false); after
    the start, the first control step makes the integral NaN, which the
    two clamping comparisons let through: [|IntUs| <= IntegralMaxUs] is
    false. *)
Theorem nan_gain_unbounds_integral :
  let s0 := loop (Some (ReqSet nan_ki_args)) (nominal 500 660) (setup boot) in
  let s1 := loop (Some (ReqStart 1000 1000 1390)) (nominal 1000 660) s0 in
  let s2 := loop None (nominal 1400 700) s1 in
  reachable s2 /\
  KiUsPerCountSec (tuning s0) = S754_nan /\
  IntUs (pid s2) = S754_nan /\
  integral_bounded (pid s2) = false.
Proof.
  cbv zeta. split; [repeat constructor |].
  split; [reflexivity |]. split; vm_compute; reflexivity.
Qed.

(** * Differential symmetry *)

Lemma slew_toward_eq (t c : Z) :
  PulseMinUs <= t <= PulseMaxUs ->
  PulseMinUs <= c <= PulseMaxUs ->
  slew_toward t c = c + ClampInt (t - c) (- SlewStepUs) SlewStepUs.
Proof.
  unfold slew_toward, PulseMinUs, PulseMaxUs. intros Ht Hc.
  rewrite (i32_small (t - c)) by lia.
  pose proof (ClampInt_spec (t - c) (- SlewStepUs) SlewStepUs) as (Hr & _);
    [unfold SlewStepUs; lia |].
  unfold SlewStepUs in *. rewrite i32_small by lia. reflexivity.
Qed.

Lemma ClampInt_opp (v k : Z) : 0 <= k -> ClampInt (- v) (- k) k = - ClampInt v (- k) k.
Proof.
  intros Hk. unfold ClampInt. rewrite !Z.gtb_ltb.
  destruct (Z.ltb_spec (- v) (- k)), (Z.ltb_spec k (- v)),
           (Z.ltb_spec v (- k)), (Z.ltb_spec k v); lia.
Qed.

(** With a differential of at most [DeltaMaxUs] the targets are
    [BaseUs + d] and [BaseUs - d], and commands that add up to [2*BaseUs]
    still do after the move. *)
Lemma drive_outputs_symmetric (u : float) (e : Esc) :
  cmds_in_range e ->
  Z.abs (to_int u) <= DeltaMaxUs ->
  ClampInt (i32 (BaseUs + to_int u)) PulseMinUs PulseMaxUs = BaseUs + to_int u /\
  ClampInt (i32 (BaseUs - to_int u)) PulseMinUs PulseMaxUs = BaseUs - to_int u /\
  (CmdUs1 e + CmdUs2 e = 2 * BaseUs ->
   CmdUs1 (drive_outputs u e) + CmdUs2 (drive_outputs u e) = 2 * BaseUs).
Proof.
  intros [H1 H2] Hd. unfold drive_outputs. simpl.
  set (d := to_int u) in *.
  assert (T1 : ClampInt (i32 (BaseUs + d)) PulseMinUs PulseMaxUs = BaseUs + d).
  { unfold BaseUs, DeltaMaxUs, PulseMinUs, PulseMaxUs in *.
    rewrite i32_small by lia. apply ClampInt_spec; lia. }
  assert (T2 : ClampInt (i32 (BaseUs - d)) PulseMinUs PulseMaxUs = BaseUs - d).
  { unfold BaseUs, DeltaMaxUs, PulseMinUs, PulseMaxUs in *.
    rewrite i32_small by lia. apply ClampInt_spec; lia. }
  split; [exact T1 |]. split; [exact T2 |]. intros Hsum.
  rewrite T1, T2.
  rewrite !slew_toward_eq by
    (unfold BaseUs, DeltaMaxUs, PulseMinUs, PulseMaxUs in *; lia).
  replace (BaseUs - d - CmdUs2 e) with (- (BaseUs + d - CmdUs1 e)) by lia.
  rewrite ClampInt_opp by (unfold SlewStepUs; lia). lia.
Qed.

Lemma pid_terms_wf (raw now : Z) (t : Tuning) (p : Pid) :
  wf32 (IntUs p) = true ->
  wf32 (IntUs (fst (pid_terms raw now t p))) = true /\
  wf32 (snd (pid_terms raw now t p)) = true.
Proof.
  intros H. unfold pid_terms, u_diff. cbn [fst snd IntUs].
  assert (Hi : wf32 (clamp_sym
                       (fadd (IntUs p)
                             (fmul (fmul (KiUsPerCountSec t)
                                         (of_int (error_of (InvertDirection t)
                                                    (filter_pot raw (PotFiltered p)))))
                                   (dt_sec now (LastTsMs p))))
                       IntegralMaxUs) = true)
    by (apply clamp_sym_wf, fadd_wf; [exact H | apply fmul_wf]).
  split; [exact Hi |].
  apply clamp_sym_wf, fsub_wf; [| apply fmul_wf].
  apply fadd_wf; [apply fmul_wf | exact Hi].
Qed.

(** The differential of a step, when it is a number, truncates to an
    integer of magnitude at most [DeltaMaxUs]. *)
Lemma u_diff_bounded (raw now : Z) (t : Tuning) (p : Pid) :
  wf32 (IntUs p) = true ->
  is_nan (snd (pid_terms raw now t p)) = false ->
  Z.abs (to_int (snd (pid_terms raw now t p))) <= DeltaMaxUs.
Proof.
  intros Hwf Hnan.
  pose proof (proj2 (pid_terms_wf raw now t p Hwf)) as Hw.
  revert Hnan Hw. unfold pid_terms, u_diff. cbn [fst snd].
  set (x := fsub _ _). intros Hnan Hw.
  pose proof (clamp_sym_abs_le x DeltaMaxUs (or_intror eq_refl) (clamp_sym_nan _ _ Hnan))
    as (_ & Hlo & Hhi).
  change (of_int DeltaMaxUs) with (S754_finite false 15728640 (-17)) in *.
  change (of_int (i32 (- DeltaMaxUs))) with (S754_finite true 15728640 (-17)) in *.
  assert (HM : 2 ^ (prec - 1) <= 15728640) by (intros C; discriminate C).
  pose proof (to_int_between 15728640 (-17) ltac:(lia) HM _ Hw Hlo Hhi) as Hb.
  change (trunc_mag 15728640 (-17)) with 120 in Hb. unfold DeltaMaxUs in *. lia.
Qed.

Lemma reachable_wf (s : state) : reachable s -> wf32 (IntUs (pid s)) = true.
Proof.
  induction 1 as [| q r s Hs IH]; [reflexivity |].
  unfold loop. destruct (ExperimentRunning (experiment s)); simpl negb; cbv iota.
  - unfold running_step.
    assert (Hw : wf32 (IntUs (pid (TrySample (ms_sample r) (adc_sample r)
                                     (ControlStepPID (adc_ctrl r) (ms_ctrl r) s)))) = true).
    { rewrite TrySample_pid. unfold ControlStepPID.
      destruct (out_of_range _); [exact IH |].
      pose proof (proj1 (pid_terms_wf (adc_ctrl r) (ms_ctrl r) (tuning s) (pid s) IH)) as H.
      destruct (pid_terms _ _ _ _); exact H. }
    destruct (run_elapsed _ _); exact Hw.
  - destruct q as [[| adc now | a | t0 t1 t2 |] |]; simpl; auto.
    unfold HandleStart. destruct (ExperimentRunning (experiment s)); simpl; auto.
Qed.

(** C5, counterexample.  Sixty iterations into a run both commands are at
    1250; an out-of-range reading in the next iteration parks both at
    1100, and their sum is 2200. *)
Lemma parked_outputs_not_symmetric : ~ commands_symmetric_in_run.
Proof.
  intros H.
  specialize (H (nominal 2000 200) (run_loop (ticks 1400 60 660) started)
                (reachable_run_loop _ _ reachable_started) eq_refl).
  vm_compute in H. apply H. reflexivity.
Qed.

(** C5, amended.  In an in-range control step whose differential is a
    number, the two targets are [BaseUs + d] and [BaseUs - d] for the same
    [d], [|d| <= DeltaMaxUs], and commands that add up to [2*BaseUs]
    before the step add up to [2*BaseUs] after it.  Whenever [HoldEscMin]
    is applied (idle, end of run, out-of-range measurement) both commands
    are [PulseMinUs] instead. *)
Theorem differential_symmetry (raw now : Z) (s : state) :
  reachable s ->
  out_of_range raw = false ->
  is_nan (snd (pid_terms raw now (tuning s) (pid s))) = false ->
  let d := to_int (snd (pid_terms raw now (tuning s) (pid s))) in
  let s' := ControlStepPID raw now s in
  Z.abs d <= DeltaMaxUs /\
  ClampInt (i32 (BaseUs + d)) PulseMinUs PulseMaxUs = BaseUs + d /\
  ClampInt (i32 (BaseUs - d)) PulseMinUs PulseMaxUs = BaseUs - d /\
  (CmdUs1 (esc s) + CmdUs2 (esc s) = 2 * BaseUs ->
   CmdUs1 (esc s') + CmdUs2 (esc s') = 2 * BaseUs) /\
  CmdUs1 (esc (HoldEscMin s)) + CmdUs2 (esc (HoldEscMin s)) = 2 * PulseMinUs.
Proof.
  intros Hs Hin Hnan. cbv zeta.
  pose proof (u_diff_bounded raw now (tuning s) (pid s) (reachable_wf s Hs) Hnan) as Hd.
  destruct (reachable_cmds s Hs) as [Hr _].
  pose proof (drive_outputs_symmetric _ (esc s) Hr Hd) as (T1 & T2 & Hsym).
  rewrite ControlStepPID_in_range by assumption.
  unfold with_esc, HoldEscMin; cbn [esc].
  split; [exact Hd |]. split; [exact T1 |]. split; [exact T2 |].
  split; [exact Hsym | reflexivity].
Qed.

(** * Sampling *)

Lemma StronglySorted_snoc (l : list Z) (x : Z) :
  StronglySorted Z.lt l -> Forall (fun y => y < x) l -> StronglySorted Z.lt (l ++ [x]).
Proof.
  induction l as [| a l IH]; intros Hs Hf; simpl.
  - repeat constructor.
  - apply StronglySorted_inv in Hs as [Hs Ha].
    apply Forall_cons_1 in Hf as [Hax Hf].
    constructor; [apply IH; assumption |].
    apply Forall_app. split; [exact Ha | repeat constructor; exact Hax].
Qed.

Lemma u16_small (z : Z) : 0 <= z < 65536 -> u16 z = z.
Proof. intros H. unfold u16. change (2 ^ 16) with 65536. apply Z.mod_small, H. Qed.

(** [TrySample] either leaves the buffer alone or appends the offset of the
    iteration. *)
Lemma TrySample_times (now raw : Z) (s : state) (start lo : Z) :
  times_sorted_below start lo s ->
  lo <= u32 (now - start) < 65536 ->
  times_sorted_below start (u32 (now - start) + 1) (TrySample now raw s).
Proof.
  intros (Hst & Hlen & Hn & Hsort & Hlo) Hoff.
  assert (Hweak : times_sorted_below start (u32 (now - start) + 1) s).
  { split; [exact Hst |]. split; [exact Hlen |]. split; [exact Hn |].
    split; [exact Hsort |].
    eapply Forall_impl; [exact Hlo |]. cbv beta. intros; lia. }
  unfold TrySample.
  destruct (negb _); [exact Hweak |].
  destruct (now <? _); [exact Hweak |].
  destruct (Z.geb_spec (SampleCount (samples s)) MaxSamples) as [| Hfree]; [exact Hweak |].
  unfold times_sorted_below, recorded_times, MaxSamples in *. simpl.
  rewrite Hst. rewrite (u16_small (SampleCount (samples s) + 1)) by lia.
  assert (Hnn : 0 <= u32 (now - start))
    by (unfold u32; apply Z.mod_pos_bound; lia).
  rewrite (u16_small (u32 (now - start))) by lia.
  unfold store. rewrite length_insert.
  replace (Z.to_nat (SampleCount (samples s) + 1))
    with (S (Z.to_nat (SampleCount (samples s)))) by lia.
  rewrite (take_S_r _ _ (u32 (now - start)))
    by (apply list_lookup_insert_eq; lia).
  rewrite take_insert_ge by lia.
  split; [reflexivity |]. split; [assumption |]. split; [lia |].
  split.
  - apply StronglySorted_snoc; [assumption |].
    eapply Forall_impl; [exact Hlo |]. simpl. intros; lia.
  - apply Forall_app. split.
    + eapply Forall_impl; [exact Hlo |]. simpl. intros; lia.
    + repeat constructor. lia.
Qed.

Lemma loop_times (r : Readings) (s : state) (start lo : Z) :
  times_sorted_below start lo s ->
  lo <= sample_offset start r < 65536 ->
  times_sorted_below start (sample_offset start r + 1) (loop None r s).
Proof.
  intros H Hoff. unfold loop, sample_offset in *.
  destruct (ExperimentRunning (experiment s)); simpl negb; cbv iota.
  - unfold running_step.
    assert (H1 : times_sorted_below start lo (ControlStepPID (adc_ctrl r) (ms_ctrl r) s)).
    { unfold times_sorted_below, recorded_times.
      rewrite ControlStepPID_experiment, ControlStepPID_samples. exact H. }
    pose proof (TrySample_times (ms_sample r) (adc_sample r) _ start lo H1 Hoff) as H2.
    destruct (run_elapsed _ _); exact H2.
  - destruct H as (Hst & Hlen & Hn & Hsort & Hlo).
    unfold times_sorted_below, recorded_times, idle_step, ServiceWeb, HoldEscMin, with_esc.
    cbn [experiment samples].
    split; [exact Hst |]. split; [exact Hlen |]. split; [exact Hn |].
    split; [exact Hsort |].
    eapply Forall_impl; [exact Hlo |]. cbv beta. intros; lia.
Qed.

Lemma run_loop_times (start : Z) (rs : list Readings) :
  forall (s : state) (lo : Z),
    times_sorted_below start lo s ->
    StronglySorted Z.lt (map (sample_offset start) rs) ->
    Forall (fun r => lo <= sample_offset start r < 65536) rs ->
    exists lo', times_sorted_below start lo' (run_loop rs s).
Proof.
  induction rs as [| r rs IH]; intros s lo Hinv Hsort Hb; simpl.
  - eauto.
  - simpl in Hsort. apply StronglySorted_inv in Hsort as [Hsort Hr].
    apply Forall_cons_1 in Hb as [Hr0 Hb].
    apply (IH _ (sample_offset start r + 1)).
    + apply (loop_times r s start lo); assumption.
    + exact Hsort.
    + rewrite Forall_map in Hr.
      rewrite Forall_forall in *. intros x Hx.
      specialize (Hr x Hx). specialize (Hb x Hx). simpl in Hr. lia.
Qed.

(** C10. Within a run the recorded sample times increase strictly, and so
    does the time array the data endpoint serves.  The run is started by a
    start request served in an idle iteration and carried on by any
    iterations of [loop]; what is asked of the clock is what the 10 ms
    delay at the end of every iteration gives: the sampling instants,
    counted from the start of the run, increase from one iteration to the
    next, and they fit the 16 bits of a [Tms] cell. *)
Theorem sample_times_strictly_increase
    (t0 t1 t2 : Z) (r0 : Readings) (s : state) (rs : list Readings) :
  length (Tms (samples s)) = Z.to_nat MaxSamples ->
  ExperimentRunning (experiment s) = false ->
  StronglySorted Z.lt (map (sample_offset t1) rs) ->
  Forall (fun r => sample_offset t1 r < 65536) rs ->
  let s' := run_loop rs (loop (Some (ReqStart t0 t1 t2)) r0 s) in
  StronglySorted Z.lt (recorded_times s') /\
  (forall d, HandleData s' = RespData d -> StronglySorted Z.lt (d_t d)).
Proof.
  intros Hlen Hidle Hsort Hfit. cbv zeta.
  assert (H0 : times_sorted_below t1 0 (loop (Some (ReqStart t0 t1 t2)) r0 s)).
  { unfold loop. rewrite Hidle. simpl. unfold HandleStart. rewrite Hidle.
    unfold times_sorted_below, recorded_times, MaxSamples. simpl.
    repeat split; try assumption; try lia; constructor. }
  destruct (run_loop_times t1 rs _ 0 H0 Hsort) as (lo' & _ & _ & _ & Hs & _).
  { eapply Forall_impl; [exact Hfit |]. simpl. intros r Hr. split; [| exact Hr].
    unfold sample_offset, u32. apply Z.mod_pos_bound. lia. }
  split; [exact Hs |].
  intros d Hd. unfold HandleData in Hd.
  destruct (negb _ || _); [discriminate |].
  injection Hd as <-. exact Hs.
Qed.

Lemma sample_times_strictly_increase_witness :
  let rs := ticks 1400 4 660 in
  StronglySorted Z.lt (map (sample_offset 1000) rs) /\
  Forall (fun r => sample_offset 1000 r < 65536) rs /\
  StronglySorted Z.lt (recorded_times (run_loop rs started)).
Proof.
  cbv zeta.
  assert (Hs : StronglySorted Z.lt (map (sample_offset 1000) (ticks 1400 4 660))).
  { vm_compute. repeat constructor. }
  assert (Hf : Forall (fun r => sample_offset 1000 r < 65536) (ticks 1400 4 660)).
  { unfold ticks; cbn [map seq].
    repeat (constructor; [vm_compute; reflexivity |]). constructor. }
  split; [exact Hs |]. split; [exact Hf |].
  exact (proj1 (sample_times_strictly_increase 1000 1000 1390 (nominal 1000 660)
                  (setup boot) (ticks 1400 4 660) eq_refl eq_refl Hs Hf)).
Defined.

(** The end of a run: the iteration that finds the duration elapsed leaves
    the phase idle, both commands at MIN and the buffer readable. *)
Lemma run_end_idle_and_readable (r : Readings) (s : state) :
  ExperimentRunning (experiment s) = true ->
  run_elapsed (ms_end r)
    (TrySample (ms_sample r) (adc_sample r) (ControlStepPID (adc_ctrl r) (ms_ctrl r) s))
  = true ->
  ExperimentRunning (experiment (loop None r s)) = false /\
  SamplesReady (experiment (loop None r s)) = true /\
  CmdUs1 (esc (loop None r s)) = PulseMinUs /\ CmdUs2 (esc (loop None r s)) = PulseMinUs.
Proof.
  intros Hrun Hel. unfold loop, running_step. rewrite Hrun; simpl negb; cbv iota.
  rewrite Hel. repeat split.
Qed.

(** C9, the failing run.  A start served at 1000 ms reads the start time
    before the slew to base and the end time after it (at 1390 ms); with
    iterations every 10 ms and a steady measurement, the run ends idle with
    the buffer readable and 408 samples, and the last of them carries the
    time 20350 ms, past the 20000 ms of the run. *)
Theorem nominal_run_last_sample_late :
  reachable nominal_run /\
  ExperimentRunning (experiment nominal_run) = false /\
  SamplesReady (experiment nominal_run) = true /\
  ExperimentStartMs (experiment started) = 1000 /\
  ExperimentEndMs (experiment started) = 1390 + ExperimentDurationMs /\
  SampleCount (samples nominal_run) = 408 /\
  last (recorded_times nominal_run) = Some 20350 /\
  (exists d, HandleData nominal_run = RespData d /\ last (d_t d) = Some 20350) /\
  ExperimentDurationMs < 20350.
Proof.
  split; [apply reachable_run_loop, reachable_started |].
  split; [vm_compute; reflexivity |].
  split; [vm_compute; reflexivity |].
  split; [vm_compute; reflexivity |].
  split; [vm_compute; reflexivity |].
  split; [vm_compute; reflexivity |].
  split; [vm_compute; reflexivity |].
  split; [| vm_compute; reflexivity].
  vm_compute. eexists. split; reflexivity.
Qed.

Lemma differential_symmetry_witness :
  let s := run_loop (ticks 1400 60 660) started in
  reachable s /\ out_of_range 700 = false /\
  is_nan (snd (pid_terms 700 2000 (tuning s) (pid s))) = false /\
  CmdUs1 (esc s) + CmdUs2 (esc s) = 2 * BaseUs /\
  CmdUs1 (esc (ControlStepPID 700 2000 s)) + CmdUs2 (esc (ControlStepPID 700 2000 s))
  = 2 * BaseUs.
Proof.
  cbv zeta.
  assert (Hr : reachable (run_loop (ticks 1400 60 660) started))
    by exact (reachable_run_loop _ _ reachable_started).
  assert (Hn : is_nan (snd (pid_terms 700 2000
                              (tuning (run_loop (ticks 1400 60 660) started))
                              (pid (run_loop (ticks 1400 60 660) started)))) = false)
    by (vm_compute; reflexivity).
  assert (Hsum : CmdUs1 (esc (run_loop (ticks 1400 60 660) started))
                 + CmdUs2 (esc (run_loop (ticks 1400 60 660) started)) = 2 * BaseUs)
    by (vm_compute; reflexivity).
  pose proof (differential_symmetry 700 2000 _ Hr eq_refl Hn) as H.
  cbv zeta in H. destruct H as (_ & _ & _ & H & _).
  split; [exact Hr |]. split; [reflexivity |]. split; [exact Hn |].
  split; [exact Hsum | exact (H Hsum)].
Defined.

(** * Further properties of the experiment sketch *)

Lemma u32_small (z : Z) : 0 <= z < 4294967296 -> u32 z = z.
Proof. intros H. unfold u32. change (2 ^ 32) with 4294967296. apply Z.mod_small, H. Qed.

Lemma u32_sub_u32 (a b : Z) : u32 (u32 a - u32 b) = u32 (a - b).
Proof. unfold u32. now rewrite Zminus_mod_idemp_l, Zminus_mod_idemp_r. Qed.

(** X1. The end-of-run test survives the wrap of the millisecond clock: for
    a run armed at clock value [t], an iteration [d] ms later
    ([0 <= d < 2^31]) finds the run elapsed exactly when
    [d >= ExperimentDurationMs], whatever [t] is. *)
Theorem end_of_run_test_wraps (t0 t1 t d : Z) (s : state) :
  ExperimentRunning (experiment s) = false ->
  0 <= d < 2147483648 ->
  run_elapsed (u32 (t + d)) (snd (HandleStart t0 t1 t s)) = (ExperimentDurationMs <=? d).
Proof.
  intros Hidle Hd. unfold run_elapsed, HandleStart. rewrite Hidle.
  cbn [snd]. unfold with_experiment; cbn [experiment ExperimentEndMs].
  rewrite u32_sub_u32.
  replace (t + d - (t + ExperimentDurationMs)) with (d - ExperimentDurationMs) by lia.
  unfold ExperimentDurationMs.
  destruct (Z.leb_spec 20000 d) as [Hge | Hlt].
  - rewrite u32_small by lia. rewrite i32_small by lia.
    apply Z.geb_le. lia.
  - assert (E : u32 (d - 20000) = d - 20000 + 4294967296).
    { unfold u32. change (2 ^ 32) with 4294967296.
      symmetry. apply (Z.mod_unique_pos _ _ (-1)); lia. }
    rewrite E.
    assert (E2 : i32 (d - 20000 + 4294967296) = d - 20000).
    { unfold i32. change (2 ^ 31) with 2147483648. change (2 ^ 32) with 4294967296.
      replace (d - 20000 + 4294967296 + 2147483648)
        with (d - 20000 + 2147483648 + 1 * 4294967296) by lia.
      rewrite Z.mod_add by lia. rewrite Z.mod_small; lia. }
    rewrite E2. destruct (Z.geb_spec (d - 20000) 0); [lia | reflexivity].
Qed.

Lemma end_of_run_test_wraps_witness :
  ExperimentRunning (experiment (setup boot)) = false /\
  run_elapsed (u32 (4294967290 + 19999)) (snd (HandleStart 0 0 4294967290 (setup boot)))
  = false /\
  run_elapsed (u32 (4294967290 + 20000)) (snd (HandleStart 0 0 4294967290 (setup boot)))
  = true.
Proof.
  split; [reflexivity |]. split.
  - apply (end_of_run_test_wraps 0 0 4294967290 19999 (setup boot) eq_refl). lia.
  - apply (end_of_run_test_wraps 0 0 4294967290 20000 (setup boot) eq_refl). lia.
Defined.

Lemma pulse_ok_min : pulse_ok (PulseMinUs, PulseMinUs).
Proof. unfold pulse_ok, PulseMinUs, PulseMaxUs. simpl. lia. Qed.

Lemma pulse_ok_max : pulse_ok (PulseMaxUs, PulseMaxUs).
Proof. unfold pulse_ok, PulseMinUs, PulseMaxUs. simpl. lia. Qed.

Lemma slew_loop_pulses (t1 t2 : Z) :
  PulseMinUs <= t1 <= PulseMaxUs ->
  PulseMinUs <= t2 <= PulseMaxUs ->
  forall (fuel : nat) (e : Esc),
    cmds_in_range e ->
    Forall pulse_ok (EscOut e) ->
    Forall pulse_ok (EscOut (slew_loop fuel t1 t2 e)).
Proof.
  intros Ht1 Ht2. induction fuel as [| fuel IH]; intros e He Hp; [exact Hp |].
  cbn [slew_loop]. pose proof (slew_iter_spec t1 t2 e Ht1 Ht2 He) as H. cbv zeta in H.
  destruct (slew_iter t1 t2 e) as [e' done]. cbn [fst snd] in H.
  destruct H as (Hr & Hout & _).
  assert (Hp' : Forall pulse_ok (EscOut e')).
  { rewrite Hout. constructor; [exact Hr | exact Hp]. }
  destruct done; [exact Hp' | exact (IH e' Hr Hp')].
Qed.

Lemma HandleStart_pulses (t0 t1 t2 : Z) (s : state) :
  cmds_in_range (esc s) ->
  Forall pulse_ok (EscOut (esc s)) ->
  Forall pulse_ok (EscOut (esc (snd (HandleStart t0 t1 t2 s)))).
Proof.
  intros Hr Hp. unfold HandleStart.
  destruct (ExperimentRunning (experiment s)); [exact Hp |].
  cbn [snd]. unfold with_experiment, SlewBothTo, with_esc; cbn [esc].
  unfold with_samples, with_pid; cbn [esc]. unfold SlewBothTo_esc.
  apply slew_loop_pulses; auto using ClampInt_pulse.
Qed.

Lemma HoldEscMin_pulses (e : Esc) :
  Forall pulse_ok (EscOut e) -> Forall pulse_ok (EscOut (HoldEscMin_esc e)).
Proof. intros H. unfold HoldEscMin_esc, write_escs; cbn [EscOut set_cmds]. constructor; [apply pulse_ok_min | exact H]. Qed.

Lemma ControlStepPID_pulses (raw now : Z) (s : state) :
  cmds_in_range (esc s) ->
  Forall pulse_ok (EscOut (esc s)) ->
  Forall pulse_ok (EscOut (esc (ControlStepPID raw now s))).
Proof.
  intros Hr Hp. unfold ControlStepPID. destruct (out_of_range raw).
  - apply HoldEscMin_pulses, Hp.
  - destruct (pid_terms _ _ _ _) as [p' u]. unfold with_esc; cbn [esc].
    pose proof (drive_outputs_spec u (esc s) Hr) as (Hr' & _ & _ & Hout).
    rewrite Hout. constructor; [exact Hr' | exact Hp].
Qed.

(** X2. The ESCs are never sent a pulse outside the working range: in every
    reachable state both commands and every pulse written so far lie in
    [[PulseMinUs, PulseMaxUs]], and outside a run both commands are at
    [PulseMinUs]. *)
Theorem pulses_stay_in_range (s : state) :
  reachable s ->
  cmds_in_range (esc s) /\
  Forall pulse_ok (EscOut (esc s)) /\
  (ExperimentRunning (experiment s) = false ->
   CmdUs1 (esc s) = PulseMinUs /\ CmdUs2 (esc s) = PulseMinUs).
Proof.
  intros Hs. destruct (reachable_cmds s Hs) as [Hc Hidle].
  split; [exact Hc |]. split; [| exact Hidle]. clear Hc Hidle.
  induction Hs as [| q r s Hs IH].
  - unfold setup, CalibrateBothMaxMin, HoldEscMin, with_esc; cbn [esc].
    repeat (apply HoldEscMin_pulses || constructor);
      apply pulse_ok_min || apply pulse_ok_max.
  - destruct (reachable_cmds s Hs) as [Hc _].
    unfold loop. destruct (ExperimentRunning (experiment s)); simpl negb; cbv iota.
    + unfold running_step.
      pose proof (ControlStepPID_pulses (adc_ctrl r) (ms_ctrl r) s Hc IH) as H1.
      destruct (run_elapsed _ _).
      * unfold stop_run, HoldEscMin, with_experiment, with_esc; cbn [esc].
        apply HoldEscMin_pulses. rewrite TrySample_esc. exact H1.
      * rewrite TrySample_esc. exact H1.
    + unfold idle_step, HoldEscMin, with_esc; cbn [esc]. apply HoldEscMin_pulses.
      destruct q as [[| adc now | a | t0 t1 t2 |] |]; cbn [ServiceWeb dispatch snd];
        try exact IH.
      apply HandleStart_pulses; assumption.
Qed.

Lemma pulses_stay_in_range_witness :
  reachable started /\ cmds_in_range (esc started) /\
  Forall pulse_ok (EscOut (esc started)).
Proof.
  pose proof (pulses_stay_in_range started reachable_started) as (H1 & H2 & _).
  split; [exact reachable_started |]. split; [exact H1 | exact H2].
Defined.

Lemma TrySample_buffer (now raw : Z) (s : state) :
  buffer_ok (samples s) -> buffer_ok (samples (TrySample now raw s)).
Proof.
  intros H. unfold TrySample.
  destruct (negb _); [exact H |].
  destruct (now <? _); [exact H |].
  destruct (Z.geb_spec (SampleCount (samples s)) MaxSamples) as [| Hfree]; [exact H |].
  destruct H as (Hn & H1 & H2 & H3 & H4 & H5 & H6 & H7).
  unfold buffer_ok, with_experiment, with_samples, store, MaxSamples in *.
  cbn [samples SampleCount Tms AdcRaw AdcErr AdcFilt PUs IUs DUs].
  rewrite !length_insert. rewrite u16_small by lia.
  split; [lia |]. repeat split; assumption.
Qed.

Lemma HandleStart_buffer (t0 t1 t2 : Z) (s : state) :
  buffer_ok (samples s) -> buffer_ok (samples (snd (HandleStart t0 t1 t2 s))).
Proof.
  intros H. unfold HandleStart.
  destruct (ExperimentRunning (experiment s)); [exact H |].
  destruct H as (Hn & H). unfold buffer_ok, MaxSamples in *. cbn.
  split; [lia | exact H].
Qed.

Lemma loop_buffer (q : option request) (r : Readings) (s : state) :
  buffer_ok (samples s) -> buffer_ok (samples (loop q r s)).
Proof.
  intros IH. unfold loop.
  destruct (ExperimentRunning (experiment s)); simpl negb; cbv iota.
  - unfold running_step.
    assert (H1 : buffer_ok (samples (TrySample (ms_sample r) (adc_sample r)
                                       (ControlStepPID (adc_ctrl r) (ms_ctrl r) s)))).
    { apply TrySample_buffer. rewrite ControlStepPID_samples. exact IH. }
    destruct (run_elapsed _ _); exact H1.
  - unfold idle_step, HoldEscMin, with_esc; cbn [samples].
    destruct q as [[| adc now | a | t0 t1 t2 |] |]; cbn [ServiceWeb dispatch snd];
      try exact IH.
    apply HandleStart_buffer, IH.
Qed.

Lemma setup_buffer : buffer_ok (samples (setup boot)).
Proof. unfold buffer_ok, MaxSamples. cbn. repeat split; lia. Qed.

Lemma reachable_buffer (s : state) : reachable s -> buffer_ok (samples s).
Proof.
  induction 1 as [| q r s Hs IH]; [exact setup_buffer | exact (loop_buffer q r s IH)].
Qed.

(** X3. The sampling buffer is never overrun: in every reachable state the
    sample count is between 0 and [MaxSamples] and the seven arrays keep
    their [MaxSamples] cells. *)
Theorem buffer_never_overrun (s : state) : reachable s -> buffer_ok (samples s).
Proof.
  intros Hs. induction Hs as [| q r s Hs IH].
  - exact setup_buffer.
  - apply loop_buffer. exact IH.
Qed.

Lemma buffer_never_overrun_witness :
  reachable nominal_run /\ SampleCount (samples nominal_run) <= MaxSamples.
Proof.
  assert (Hr : reachable nominal_run)
    by exact (reachable_run_loop _ _ reachable_started).
  split; [exact Hr |].
  exact (proj2 (proj1 (buffer_never_overrun nominal_run Hr))).
Defined.

(** X4. One iteration of a run records at most one sample.  When it records
    one, the buffer had room, the clock had reached [NextSampleAtMs], the
    time stored is the clock minus [ExperimentStartMs] cut to 16 bits, and
    the next sample is due [SamplePeriodMs] later; with the buffer full
    the iteration leaves the sample arrays and the count as they are. *)
Theorem one_sample_per_iteration (r : Readings) (s : state) :
  ExperimentRunning (experiment s) = true ->
  buffer_ok (samples s) ->
  let s' := loop None r s in
  let n := SampleCount (samples s) in
  (samples s' = samples s /\
   NextSampleAtMs (experiment s') = NextSampleAtMs (experiment s)) \/
  (SampleCount (samples s') = n + 1 /\
   n < MaxSamples /\
   NextSampleAtMs (experiment s) <= ms_sample r /\
   Tms (samples s') !! Z.to_nat n
   = Some (u16 (u32 (ms_sample r - ExperimentStartMs (experiment s)))) /\
   NextSampleAtMs (experiment s') = u32 (NextSampleAtMs (experiment s) + SamplePeriodMs)).
Proof.
  intros Hrun Hb. cbv zeta. unfold loop, running_step. rewrite Hrun; simpl negb; cbv iota.
  set (s1 := ControlStepPID (adc_ctrl r) (ms_ctrl r) s).
  assert (E1 : experiment s1 = experiment s) by apply ControlStepPID_experiment.
  assert (E2 : samples s1 = samples s) by apply ControlStepPID_samples.
  assert (H : (samples (TrySample (ms_sample r) (adc_sample r) s1) = samples s /\
               NextSampleAtMs (experiment (TrySample (ms_sample r) (adc_sample r) s1))
               = NextSampleAtMs (experiment s)) \/
              (SampleCount (samples (TrySample (ms_sample r) (adc_sample r) s1))
               = SampleCount (samples s) + 1 /\
               SampleCount (samples s) < MaxSamples /\
               NextSampleAtMs (experiment s) <= ms_sample r /\
               Tms (samples (TrySample (ms_sample r) (adc_sample r) s1))
                 !! Z.to_nat (SampleCount (samples s))
               = Some (u16 (u32 (ms_sample r - ExperimentStartMs (experiment s)))) /\
               NextSampleAtMs (experiment (TrySample (ms_sample r) (adc_sample r) s1))
               = u32 (NextSampleAtMs (experiment s) + SamplePeriodMs))).
  { unfold TrySample. rewrite E1, E2, Hrun. simpl negb. cbv iota.
    destruct (Z.ltb_spec (ms_sample r) (NextSampleAtMs (experiment s))) as [| Hdue];
      [left; rewrite E1, E2; split; reflexivity |].
    destruct (Z.geb_spec (SampleCount (samples s)) MaxSamples) as [| Hfree];
      [left; rewrite E1, E2; split; reflexivity |].
    right. destruct Hb as (Hn & Hlen & _).
    unfold with_experiment, with_samples, store, MaxSamples in *.
    cbn [samples experiment SampleCount Tms NextSampleAtMs].
    rewrite u16_small by lia.
    split; [reflexivity |]. split; [lia |]. split; [lia |]. split; [| reflexivity].
    apply list_lookup_insert_eq. lia. }
  destruct (run_elapsed _ _); [| exact H].
  unfold stop_run, HoldEscMin, with_experiment, with_esc.
  cbn [samples experiment NextSampleAtMs]. exact H.
Qed.

Lemma one_sample_per_iteration_witness :
  ExperimentRunning (experiment started) = true /\
  buffer_ok (samples started) /\
  SampleCount (samples (loop None (nominal 1400 660) started)) = 1 /\
  Tms (samples (loop None (nominal 1400 660) started)) !! 0%nat = Some 400.
Proof.
  assert (Hb : buffer_ok (samples started))
    by exact (reachable_buffer started reachable_started).
  pose proof (one_sample_per_iteration (nominal 1400 660) started eq_refl Hb) as H.
  cbv zeta in H.
  split; [reflexivity |]. split; [exact Hb |].
  destruct H as [[H _] | (H1 & _ & _ & H2 & _)].
  - exfalso. apply (f_equal SampleCount) in H. vm_compute in H. discriminate H.
  - split; [exact H1 | exact H2].
Defined.

(** X5. What [/data] serves: nothing ("no_data") exactly when no run has
    finished since the last start or no sample was recorded; otherwise the
    count and seven arrays that all have exactly [count] entries. *)
Theorem data_reply_shape (s : state) :
  buffer_ok (samples s) ->
  match HandleData s with
  | RespNoData =>
      SamplesReady (experiment s) = false \/ SampleCount (samples s) = 0
  | RespData d =>
      SamplesReady (experiment s) = true /\
      d_count d = SampleCount (samples s) /\ 0 < d_count d /\
      d_dt_ms d = SamplePeriodMs /\
      Forall (fun a : list Z => length a = Z.to_nat (d_count d))
             [d_t d; d_adc_raw d; d_adc_filt d; d_err d; d_p d; d_i d; d_d d]
  | _ => False
  end.
Proof.
  intros (Hn & H1 & H2 & H3 & H4 & H5 & H6 & H7). unfold HandleData.
  destruct (SamplesReady (experiment s)); simpl negb; cbn [orb].
  - destruct (Z.eqb_spec (SampleCount (samples s)) 0) as [E | E]; [now right |].
    cbn [d_count d_dt_ms d_t d_adc_raw d_adc_filt d_err d_p d_i d_d].
    split; [reflexivity |]. split; [reflexivity |]. split; [lia |].
    split; [reflexivity |].
    unfold MaxSamples in *.
    repeat (constructor; [rewrite length_take; lia |]). constructor.
  - now left.
Qed.

Lemma data_reply_shape_witness :
  buffer_ok (samples nominal_run) /\
  (exists d, HandleData nominal_run = RespData d /\ length (d_t d) = 408%nat) /\
  HandleData started = RespNoData.
Proof.
  assert (Hb : buffer_ok (samples nominal_run))
    by exact (reachable_buffer nominal_run (reachable_run_loop _ _ reachable_started)).
  pose proof (data_reply_shape nominal_run Hb) as H.
  split; [exact Hb |]. split; [| reflexivity].
  destruct (HandleData nominal_run) as [| | ok msg | snap | | d]; try contradiction.
  - exfalso. destruct H as [H | H]; vm_compute in H; discriminate H.
  - exists d. split; [reflexivity |].
    destruct H as (_ & Hc & _ & _ & Hl).
    apply Forall_cons_1 in Hl as [Hl _]. rewrite Hl, Hc. vm_compute. reflexivity.
Defined.

(** X6. An accepted start: from an idle state whose commands are in the
    pulse range, [HandleStart] answers "started", zeroes the integral and
    the filtered derivative, stamps [LastTsMs], empties the buffer
    (count 0, not readable), brings both commands to [BaseUs], sets the
    phase to running and arms the end of the run [ExperimentDurationMs]
    after the clock value read once the slew is over.  The gains, the
    filtered measurement, [lastY] and the sample arrays are not touched. *)
Theorem accepted_start_resets (t0 t1 t2 : Z) (s : state) :
  ExperimentRunning (experiment s) = false ->
  cmds_in_range (esc s) ->
  let s' := snd (HandleStart t0 t1 t2 s) in
  fst (HandleStart t0 t1 t2 s) = RespStart true "started" /\
  pid s' = {| IntUs := f0; DerivFilt := f0; PotFiltered := PotFiltered (pid s);
              LastTsMs := t0; lastY := lastY (pid s) |} /\
  experiment s' = {| ExperimentRunning := true;
                     ExperimentEndMs := u32 (t2 + ExperimentDurationMs);
                     ExperimentStartMs := t1; NextSampleAtMs := t1;
                     SamplesReady := false |} /\
  SampleCount (samples s') = 0 /\
  recorded_times s' = [] /\
  HandleData s' = RespNoData /\
  CmdUs1 (esc s') = BaseUs /\ CmdUs2 (esc s') = BaseUs /\
  tuning s' = tuning s /\
  Tms (samples s') = Tms (samples s).
Proof.
  intros Hidle Hr. cbv zeta.
  destruct (SlewBothTo_esc_spec BaseUs BaseUs (esc s) Hr) as (l & _ & _ & _ & E1 & E2).
  unfold HandleStart, HandleData, recorded_times. rewrite Hidle.
  cbn [fst snd]. unfold with_experiment, SlewBothTo, with_esc, with_samples, with_pid.
  cbn [pid experiment samples esc tuning SampleCount Tms SamplesReady negb orb].
  rewrite E1, E2. repeat split; reflexivity.
Qed.

Lemma accepted_start_resets_witness :
  ExperimentRunning (experiment (setup boot)) = false /\
  cmds_in_range (esc (setup boot)) /\
  CmdUs1 (esc (snd (HandleStart 1000 1000 1390 (setup boot)))) = BaseUs /\
  ExperimentEndMs (experiment (snd (HandleStart 1000 1000 1390 (setup boot)))) = 21390.
Proof.
  assert (Hr : cmds_in_range (esc (setup boot)))
    by exact (proj1 (reachable_cmds _ reach_setup)).
  pose proof (accepted_start_resets 1000 1000 1390 (setup boot) eq_refl Hr) as H.
  cbv zeta in H. destruct H as (_ & _ & He & _ & _ & _ & Hc & _).
  split; [reflexivity |]. split; [exact Hr |]. split; [exact Hc |].
  rewrite He. reflexivity.
Defined.

Lemma fle_not_fgt (a b : float) : fle a b = true -> fgt a b = false.
Proof. intros H. unfold fgt. exact (fle_not_flt a b H). Qed.

(** X7. [/set] inside the bounds, then [/state]: a requested gain that the
    comparisons place in [[0, hi]] is stored exactly as requested, and
    what [/state] then carries for it is the text [String(v, places)] of
    that value, 3 decimals for Kp and Kd and 4 for Ki, so digits beyond
    them are not read back; a gain whose key is absent keeps its value;
    and nothing but the gains and the direction flag is written. *)
Theorem set_in_bounds_round_trip (g : gain) (a : SetArgs) (s : state) (adc now : Z) :
  let s' := snd (HandleSet a s) in
  (forall v, gain_arg g a = Some v ->
             fle f0 v = true -> fle v (gain_hi g) = true ->
             gain_stored g (tuning s') = v /\
             forall fmt,
               gain_reported fmt g (HandleState adc now s')
               = Some (fmt v (gain_places g))) /\
  (gain_arg g a = None -> gain_stored g (tuning s') = gain_stored g (tuning s)) /\
  pid s' = pid s /\ esc s' = esc s /\ experiment s' = experiment s /\
  samples s' = samples s.
Proof.
  cbv zeta. split; [| split; [| repeat split]].
  - intros v Harg Hlo Hhi.
    assert (Hc : constrain v f0 (gain_hi g) = v).
    { unfold constrain. rewrite (fle_not_flt _ _ Hlo), (fle_not_fgt _ _ Hhi).
      reflexivity. }
    destruct g; cbn in *; rewrite Harg, Hc; (split; [reflexivity | intros fmt; reflexivity]).
  - intros Harg. destruct g; cbn in *; rewrite Harg; reflexivity.
Qed.

Lemma set_in_bounds_round_trip_witness :
  let a := {| arg_kp := Some f2; arg_ki := None; arg_kd := None; arg_invert := None |} in
  fle f0 f2 = true /\ fle f2 (gain_hi GainKp) = true /\
  KpUsPerCount (tuning (snd (HandleSet a (setup boot)))) = f2 /\
  KiUsPerCountSec (tuning (snd (HandleSet a (setup boot)))) = f0_10.
Proof.
  cbv zeta.
  pose proof (set_in_bounds_round_trip GainKp
                {| arg_kp := Some f2; arg_ki := None; arg_kd := None; arg_invert := None |}
                (setup boot) 0 0) as (H1 & _).
  pose proof (set_in_bounds_round_trip GainKi
                {| arg_kp := Some f2; arg_ki := None; arg_kd := None; arg_invert := None |}
                (setup boot) 0 0) as (_ & H2 & _).
  split; [reflexivity |]. split; [reflexivity |].
  split; [exact (proj1 (H1 f2 eq_refl eq_refl eq_refl)) | exact (H2 eq_refl)].
Defined.

Lemma constrain_idem (v lo hi : float) :
  fle lo hi = true -> fle lo lo = true -> fle hi hi = true ->
  constrain (constrain v lo hi) lo hi = constrain v lo hi.
Proof.
  intros Hlh Hll Hhh.
  assert (Hc : constrain v lo hi = lo \/ constrain v lo hi = hi \/
               (constrain v lo hi = v /\ flt v lo = false /\ fgt v hi = false)).
  { unfold constrain. destruct (flt v lo); [now left |].
    destruct (fgt v hi); [right; now left | right; right; auto]. }
  destruct Hc as [-> | [-> | (-> & E1 & E2)]]; unfold constrain.
  - now rewrite (fle_not_flt _ _ Hll), (fle_not_fgt _ _ Hlh).
  - now rewrite (fle_not_flt _ _ Hlh), (fle_not_fgt _ _ Hhh).
  - now rewrite E1, E2.
Qed.

(** X8. Writing back what was just stored changes nothing: after a [/set]
    request that carries the three gains, a second request carrying the
    gains and the direction as stored is answered ok and leaves the state
    as it is.
    Clamping is idempotent, for NaN as well. *)
Theorem set_write_back_is_noop (vp vi vd : float) (inv : option Z) (s : state) :
  let s1 := snd (HandleSet {| arg_kp := Some vp; arg_ki := Some vi; arg_kd := Some vd;
                              arg_invert := inv |} s) in
  let t := tuning s1 in
  HandleSet {| arg_kp := Some (KpUsPerCount t); arg_ki := Some (KiUsPerCountSec t);
               arg_kd := Some (KdUsPerCountPerSec t);
               arg_invert := Some (if InvertDirection t then 1 else 0) |} s1
  = (RespOk, s1).
Proof.
  cbv zeta. unfold HandleSet. cbn [snd]. unfold with_tuning.
  cbn [tuning pid esc experiment samples KpUsPerCount KiUsPerCountSec
       KdUsPerCountPerSec InvertDirection arg_kp arg_ki arg_kd arg_invert].
  rewrite !constrain_idem by reflexivity.
  replace (negb ((if match inv with
                      | Some v => negb (v =? 0)
                      | None => InvertDirection (tuning s)
                      end then 1 else 0) =? 0))
    with (match inv with
          | Some v => negb (v =? 0)
          | None => InvertDirection (tuning s)
          end)
    by (destruct (match inv with
                  | Some v => negb (v =? 0)
                  | None => InvertDirection (tuning s)
                  end); reflexivity).
  reflexivity.
Qed.

(** X9. The remaining time [/state] reports is never negative, it is 0
    outside a run, and during a run, [d] ms before the armed end
    ([0 <= d < 2^31]), it is [d], across the wrap of the clock too; once
    the end is passed it is 0.  The reply also carries the commands and
    the phase as they are. *)
Theorem state_reply_remaining (adc now E d : Z) (s : state) :
  ExperimentEndMs (experiment s) = u32 E ->
  0 <= d < 2147483648 ->
  exists snap,
    HandleState adc now s = RespState snap /\
    0 <= st_remain_ms snap /\
    st_running snap = ExperimentRunning (experiment s) /\
    st_m1 snap = CmdUs1 (esc s) /\ st_m2 snap = CmdUs2 (esc s) /\ st_adc snap = adc /\
    (ExperimentRunning (experiment s) = false -> st_remain_ms snap = 0) /\
    (ExperimentRunning (experiment s) = true -> now = u32 (E - d) -> st_remain_ms snap = d) /\
    (ExperimentRunning (experiment s) = true -> 0 < d -> now = u32 (E + d) ->
     st_remain_ms snap = 0).
Proof.
  intros HE Hd. unfold HandleState. eexists. split; [reflexivity |].
  cbn [st_remain_ms st_running st_m1 st_m2 st_adc].
  split.
  { destruct (Z.ltb_spec (if ExperimentRunning (experiment s)
                          then i32 (u32 (ExperimentEndMs (experiment s) - now)) else 0) 0);
      lia. }
  repeat split.
  - intros ->. reflexivity.
  - intros -> ->. rewrite HE, u32_sub_u32.
    replace (E - (E - d)) with d by lia.
    rewrite u32_small by lia. rewrite i32_small by lia.
    destruct (Z.ltb_spec d 0); lia.
  - intros -> Hpos ->. rewrite HE, u32_sub_u32.
    replace (E - (E + d)) with (- d) by lia.
    assert (E1 : u32 (- d) = 4294967296 - d).
    { unfold u32. change (2 ^ 32) with 4294967296.
      symmetry. apply (Z.mod_unique_pos _ _ (-1)); lia. }
    rewrite E1.
    assert (E2 : i32 (4294967296 - d) = - d).
    { unfold i32. change (2 ^ 31) with 2147483648. change (2 ^ 32) with 4294967296.
      replace (4294967296 - d + 2147483648) with (- d + 2147483648 + 1 * 4294967296) by lia.
      rewrite Z.mod_add by lia. rewrite Z.mod_small; lia. }
    rewrite E2. destruct (Z.ltb_spec (- d) 0); lia.
Qed.

Lemma state_reply_remaining_witness :
  ExperimentEndMs (experiment started) = u32 21390 /\
  exists snap, HandleState 660 1400 started = RespState snap /\ st_remain_ms snap = 19990.
Proof.
  split; [reflexivity |].
  destruct (state_reply_remaining 660 1400 21390 19990 started eq_refl ltac:(lia))
    as (snap & H1 & _ & _ & _ & _ & _ & _ & H2 & _).
  exists snap. split; [exact H1 |]. exact (H2 eq_refl eq_refl).
Defined.

(** X10. Outside a run nothing is controlled or sampled: an idle iteration
    of [loop] that serves no start request leaves the PID block, the
    phase and timers, the sample buffer and both commands (at
    [PulseMinUs]) as they were, and writes one MIN pulse; only a [/set]
    request can change the gains. *)
Theorem idle_iteration_frame (q : option request) (r : Readings) (s : state) :
  reachable s ->
  ExperimentRunning (experiment s) = false ->
  is_start q = false ->
  let s' := loop q r s in
  pid s' = pid s /\ experiment s' = experiment s /\ samples s' = samples s /\
  CmdUs1 (esc s') = CmdUs1 (esc s) /\ CmdUs2 (esc s') = CmdUs2 (esc s) /\
  EscOut (esc s') = (PulseMinUs, PulseMinUs) :: EscOut (esc s) /\
  (match q with Some (ReqSet _) => True | _ => tuning s' = tuning s end).
Proof.
  intros Hs Hidle Hq. cbv zeta.
  destruct (reachable_cmds s Hs) as [_ Hmin]. destruct (Hmin Hidle) as [E1 E2].
  unfold loop. rewrite Hidle. simpl negb. cbv iota.
  destruct q as [[| adc now | a | t0 t1 t2 |] |]; try discriminate Hq;
    unfold idle_step, HoldEscMin, with_esc, HoldEscMin_esc, write_escs, set_cmds;
    cbn; rewrite E1, E2; repeat split.
Qed.

Lemma idle_iteration_frame_witness :
  reachable (setup boot) /\
  ExperimentRunning (experiment (setup boot)) = false /\
  pid (loop None (nominal 100 660) (setup boot)) = pid (setup boot) /\
  samples (loop None (nominal 100 660) (setup boot)) = samples (setup boot).
Proof.
  pose proof (idle_iteration_frame None (nominal 100 660) (setup boot) reach_setup
                eq_refl eq_refl) as H.
  cbv zeta in H. destruct H as (H1 & _ & H3 & _).
  split; [exact reach_setup |]. split; [reflexivity |]. split; [exact H1 | exact H3].
Defined.

Lemma TrySample_experiment_end (now raw : Z) (s : state) :
  ExperimentEndMs (experiment (TrySample now raw s)) = ExperimentEndMs (experiment s).
Proof.
  unfold TrySample.
  destruct (negb _); [reflexivity |].
  destruct (now <? _); [reflexivity |].
  destruct (_ >=? _); reflexivity.
Qed.

(** X11. The sampling of the later version does not disturb the control
    of the first one: from the same state and the same readings, the
    running iteration and the start handler of the two versions leave the
    same gains, PID block, commands and pulses, phase and armed end. *)
Theorem sampling_version_agrees (r : Readings) (t0 t1 t2 : Z) (s : state) :
  let a := RigV1.running_step (adc_ctrl r) (ms_ctrl r) (ms_end r) s in
  let b := running_step r s in
  let a' := snd (RigV1.HandleStart t0 t2 s) in
  let b' := snd (HandleStart t0 t1 t2 s) in
  (tuning a = tuning b /\ pid a = pid b /\ esc a = esc b /\
   ExperimentRunning (experiment a) = ExperimentRunning (experiment b) /\
   ExperimentEndMs (experiment a) = ExperimentEndMs (experiment b)) /\
  (fst (RigV1.HandleStart t0 t2 s) = fst (HandleStart t0 t1 t2 s) /\
   tuning a' = tuning b' /\ pid a' = pid b' /\ esc a' = esc b' /\
   ExperimentRunning (experiment a') = ExperimentRunning (experiment b') /\
   ExperimentEndMs (experiment a') = ExperimentEndMs (experiment b')).
Proof.
  cbv zeta. split.
  - unfold RigV1.running_step, running_step, run_elapsed.
    rewrite TrySample_experiment_end.
    destruct (_ >=? 0).
    + unfold RigV1.stop_run, stop_run, HoldEscMin, with_experiment, with_esc.
      cbn [tuning pid esc experiment ExperimentRunning ExperimentEndMs].
      rewrite TrySample_tuning, TrySample_pid, TrySample_esc, TrySample_experiment_end.
      repeat split.
    + rewrite TrySample_tuning, TrySample_pid, TrySample_esc, TrySample_running,
        TrySample_experiment_end.
      repeat split.
  - unfold RigV1.HandleStart, HandleStart.
    destruct (ExperimentRunning (experiment s)); repeat split.
Qed.

Lemma i16_small (z : Z) : -32768 <= z < 32768 -> i16 z = z.
Proof.
  intros H. unfold i16. change (2 ^ 15) with 32768. change (2 ^ 16) with 65536.
  rewrite Z.mod_small; lia.
Qed.

(** A logged PID term fits its cell: within [±2000] for every binary32
    value, NaN and the infinities included. *)
Lemma clamp16_range (v : float) :
  wf32 v = true -> -2000 <= clamp16 v 2000 <= 2000.
Proof.
  intros Hwf. unfold clamp16.
  destruct (is_nan v) eqn:Hn.
  - destruct v; try discriminate Hn. vm_compute. split; discriminate.
  - assert (Hb : fle (of_int (i32 (- 2000))) (clamp_sym v 2000) = true /\
                 fle (clamp_sym v 2000) (of_int 2000) = true)
      by (unfold clamp_sym; apply clamp_between; [exact Hn | | |]; reflexivity).
    destruct Hb as [Hlo Hhi].
    change (of_int 2000) with (S754_finite false 16384000 (-13)) in Hhi.
    change (of_int (i32 (- 2000))) with (S754_finite true 16384000 (-13)) in Hlo.
    assert (HM : 2 ^ (prec - 1) <= 16384000) by (intros C; discriminate C).
    pose proof (to_int_between 16384000 (-13) ltac:(lia) HM _
                  (clamp_sym_wf v 2000 Hwf) Hlo Hhi) as Hb.
    change (trunc_mag 16384000 (-13)) with 2000 in Hb.
    rewrite i16_small; lia.
Qed.

Lemma TrySample_cells (now raw : Z) (s : state) :
  buffer_ok (samples s) ->
  wf32 (IntUs (pid s)) = true ->
  SampleCount (samples (TrySample now raw s)) = SampleCount (samples s) + 1 ->
  cells_in_range (Z.to_nat (SampleCount (samples s))) (samples (TrySample now raw s)).
Proof.
  intros (Hn & H1 & H2 & H3 & H4 & H5 & H6 & H7) Hwf. unfold TrySample.
  destruct (negb _); [intros; lia |].
  destruct (now <? _); [intros; lia |].
  destruct (Z.geb_spec (SampleCount (samples s)) MaxSamples) as [| Hfree]; [intros; lia |].
  intros _. unfold cells_in_range, with_experiment, with_samples, store, MaxSamples in *.
  cbn [samples AdcRaw AdcErr AdcFilt PUs IUs DUs].
  pose proof (ClampInt_spec raw 0 1023 ltac:(lia)) as (R1 & _).
  pose proof (ClampInt_spec (PotFiltered (pid s)) 0 1023 ltac:(lia)) as (R2 & _).
  pose proof (ClampInt_spec (error_of (InvertDirection (tuning s)) (PotFiltered (pid s)))
                (-32768) 32767 ltac:(lia)) as (R3 & _).
  repeat split; eexists; (split; [apply list_lookup_insert_eq; lia |]).
  - rewrite u16_small; lia.
  - rewrite u16_small; lia.
  - rewrite i16_small; lia.
  - apply clamp16_range, fmul_wf.
  - apply clamp16_range, Hwf.
  - apply clamp16_range, fmul_wf.
Qed.

(** X12. Whatever the controller computes, a recorded sample fits its
    cells: when an iteration of a run records a sample, the ADC values
    stored are within [0, 1023], the error within the 16-bit range and
    the three logged PID terms within [±2000]. *)
Theorem recorded_sample_in_range (r : Readings) (s : state) :
  reachable s ->
  ExperimentRunning (experiment s) = true ->
  SampleCount (samples (loop None r s)) = SampleCount (samples s) + 1 ->
  cells_in_range (Z.to_nat (SampleCount (samples s))) (samples (loop None r s)).
Proof.
  intros Hs Hrun.
  pose proof (reachable_buffer s Hs) as Hb.
  pose proof (reachable_wf (loop None r s) (reach_loop None r s Hs)) as Hwf.
  revert Hwf. unfold loop, running_step. rewrite Hrun; simpl negb; cbv iota.
  set (s1 := ControlStepPID (adc_ctrl r) (ms_ctrl r) s).
  assert (E2 : samples s1 = samples s) by apply ControlStepPID_samples.
  assert (Hb1 : buffer_ok (samples s1)) by (rewrite E2; exact Hb).
  destruct (run_elapsed _ _).
  - unfold stop_run, HoldEscMin, with_experiment, with_esc. cbn [pid samples].
    rewrite TrySample_pid, <- E2. intros Hwf Hcount.
    apply TrySample_cells; assumption.
  - rewrite TrySample_pid, <- E2. intros Hwf Hcount.
    apply TrySample_cells; assumption.
Qed.

Lemma recorded_sample_in_range_witness :
  reachable started /\ ExperimentRunning (experiment started) = true /\
  SampleCount (samples (loop None (nominal 1400 660) started))
  = SampleCount (samples started) + 1 /\
  cells_in_range 0 (samples (loop None (nominal 1400 660) started)).
Proof.
  assert (Hc : SampleCount (samples (loop None (nominal 1400 660) started))
               = SampleCount (samples started) + 1) by (vm_compute; reflexivity).
  split; [exact reachable_started |]. split; [reflexivity |]. split; [exact Hc |].
  exact (recorded_sample_in_range (nominal 1400 660) started reachable_started eq_refl Hc).
Defined.

Lemma rng_In (lo : Z) (n : nat) (x : Z) : lo <= x < lo + Z.of_nat n -> In x (rng lo n).
Proof.
  intros H. unfold rng. apply in_map_iff. exists (Z.to_nat (x - lo)).
  split; [lia |]. apply in_seq. lia.
Qed.

Lemma smoothing_checked :
  forallb (smoothing_row (fsub f1 PotAlpha) (map smoothing_term (rng 300 601)))
          (rng 300 601)
  = true.
Proof. vm_compute. reflexivity. Qed.

Lemma smoothing_ok_in_range (raw pf : Z) :
  PotMinSafe <= raw <= PotMaxSafe ->
  PotMinSafe <= pf <= PotMaxSafe ->
  smoothing_ok raw pf = true.
Proof.
  unfold PotMinSafe, PotMaxSafe. intros Hraw Hpf.
  pose proof smoothing_checked as H.
  rewrite forallb_forall in H. specialize (H pf (rng_In 300 601 pf ltac:(lia))).
  unfold smoothing_row in H. cbv zeta in H.
  rewrite forallb_forall in H.
  specialize (H (smoothing_term raw)
                (in_map smoothing_term _ raw (rng_In 300 601 raw ltac:(lia)))).
  unfold smoothing_cell, smoothing_term in H. cbn [fst snd] in H. cbv zeta in H.
  unfold smoothing_ok, filter_pot. cbv zeta.
  destruct (Z.eqb_spec pf 0) as [E | _]; [lia |]. exact H.
Qed.

Lemma filter_pot_between (raw pf : Z) :
  PotMinSafe <= raw <= PotMaxSafe ->
  PotMinSafe <= pf <= PotMaxSafe ->
  Z.min raw pf <= filter_pot raw pf <= Z.max raw pf.
Proof.
  intros Hraw Hpf. pose proof (smoothing_ok_in_range raw pf Hraw Hpf) as H.
  unfold smoothing_ok in H. cbv zeta in H.
  apply andb_prop in H as [H _]. apply andb_prop in H as [H _].
  apply andb_prop in H as [H1 H2].
  apply Z.leb_le in H1, H2. lia.
Qed.

Lemma filter_pot_fixed (raw : Z) :
  PotMinSafe <= raw <= PotMaxSafe -> filter_pot raw raw = raw.
Proof.
  intros Hraw. pose proof (filter_pot_between raw raw Hraw Hraw). lia.
Qed.

(** X13. One smoothing step of the experiment sketch, for a measurement
    and a filtered value both in the safe range [300, 900] (checked on all
    of them): the new filtered value lies between the two; it is strictly
    below the old one when the measurement is; and because the conversion
    to [int] truncates, a measurement 0 to 4 counts above the filtered
    value leaves it where it is. *)
Theorem smoothing_step (raw pf : Z) :
  PotMinSafe <= raw <= PotMaxSafe ->
  PotMinSafe <= pf <= PotMaxSafe ->
  Z.min raw pf <= filter_pot raw pf <= Z.max raw pf /\
  (raw < pf -> filter_pot raw pf < pf) /\
  (pf <= raw <= pf + 4 -> filter_pot raw pf = pf).
Proof.
  intros Hraw Hpf. pose proof (smoothing_ok_in_range raw pf Hraw Hpf) as H.
  unfold smoothing_ok in H. cbv zeta in H.
  apply andb_prop in H as [H H4]. apply andb_prop in H as [H H3].
  apply andb_prop in H as [H1 H2].
  apply Z.leb_le in H1, H2.
  split; [lia |]. split.
  - intros Hlt. apply Z.ltb_lt in Hlt. rewrite Hlt in H3. apply Z.ltb_lt. exact H3.
  - intros [Ha Hb]. apply Z.leb_le in Ha, Hb. rewrite Ha, Hb in H4.
    apply Z.eqb_eq. exact H4.
Qed.

Lemma smoothing_step_witness :
  PotMinSafe <= 660 <= PotMaxSafe /\ PotMinSafe <= 656 <= PotMaxSafe /\
  filter_pot 660 656 = 656 /\ filter_pot 650 656 < 656.
Proof.
  assert (H1 : PotMinSafe <= 660 <= PotMaxSafe) by (unfold PotMinSafe, PotMaxSafe; lia).
  assert (H2 : PotMinSafe <= 656 <= PotMaxSafe) by (unfold PotMinSafe, PotMaxSafe; lia).
  assert (H3 : PotMinSafe <= 650 <= PotMaxSafe) by (unfold PotMinSafe, PotMaxSafe; lia).
  split; [exact H1 |]. split; [exact H2 |]. split.
  - apply (smoothing_step 660 656 H1 H2). lia.
  - apply (smoothing_step 650 656 H3 H2). lia.
Defined.

Lemma out_of_range_false (raw : Z) :
  out_of_range raw = false -> PotMinSafe <= raw <= PotMaxSafe.
Proof.
  unfold out_of_range. rewrite Z.gtb_ltb. intros H.
  apply orb_false_elim in H as [H1 H2].
  apply Z.ltb_ge in H1, H2. lia.
Qed.

(** X14. The filtered measurement never leaves the safe range once it has
    been seeded: in every reachable state [PotFiltered] is 0 (no in-range
    control step yet) or within [[PotMinSafe, PotMaxSafe]]. *)
Theorem filtered_stays_in_safe_range (s : state) :
  reachable s ->
  PotFiltered (pid s) = 0 \/ PotMinSafe <= PotFiltered (pid s) <= PotMaxSafe.
Proof.
  induction 1 as [| q r s Hs IH]; [now left |].
  unfold loop. destruct (ExperimentRunning (experiment s)); simpl negb; cbv iota.
  - unfold running_step.
    assert (H1 : PotFiltered (pid (ControlStepPID (adc_ctrl r) (ms_ctrl r) s)) = 0 \/
                 PotMinSafe <= PotFiltered (pid (ControlStepPID (adc_ctrl r) (ms_ctrl r) s))
                 <= PotMaxSafe).
    { unfold ControlStepPID. destruct (out_of_range (adc_ctrl r)) eqn:Hin; [exact IH |].
      apply out_of_range_false in Hin.
      unfold pid_terms, with_esc, with_pid. cbn [pid PotFiltered]. right.
      set (pf0 := if PotFiltered (pid s) =? 0 then adc_ctrl r else PotFiltered (pid s)).
      assert (Hpf0 : PotMinSafe <= pf0 <= PotMaxSafe).
      { unfold pf0. destruct (Z.eqb_spec (PotFiltered (pid s)) 0); [exact Hin |].
        destruct IH; [contradiction | assumption]. }
      assert (E : filter_pot (adc_ctrl r) (PotFiltered (pid s)) = filter_pot (adc_ctrl r) pf0).
      { unfold filter_pot, pf0. destruct (PotFiltered (pid s) =? 0) eqn:E0.
        - destruct (adc_ctrl r =? 0); reflexivity.
        - rewrite E0. reflexivity. }
      rewrite E.
      pose proof (filter_pot_between (adc_ctrl r) pf0 Hin Hpf0) as Hb. lia. }
    destruct (run_elapsed _ _).
    + unfold stop_run, HoldEscMin, with_experiment, with_esc. cbn [pid].
      rewrite TrySample_pid. exact H1.
    + rewrite TrySample_pid. exact H1.
  - unfold idle_step, HoldEscMin, with_esc. cbn [pid].
    destruct q as [[| adc now | a | t0 t1 t2 |] |]; cbn [ServiceWeb dispatch snd];
      try exact IH.
    rewrite HandleStart_PotFiltered. exact IH.
Qed.

Lemma filtered_stays_in_safe_range_witness :
  reachable nominal_run /\ PotFiltered (pid nominal_run) = 660.
Proof.
  assert (Hr : reachable nominal_run)
    by exact (reachable_run_loop _ _ reachable_started).
  split; [exact Hr |].
  destruct (filtered_stays_in_safe_range nominal_run Hr) as [H | H];
    vm_compute; reflexivity.
Defined.

(** X15. The time step of the PID is always a positive finite number,
    never zero, negative, infinite or NaN; when the clock has not advanced
    since the last step, or no step was stamped yet ([LastTsMs] is 0), it
    is [LoopDtMs/1000]. *)
Theorem time_step_guarded (now last : Z) :
  (exists (m : positive) (e : Z), dt_sec now last = S754_finite false m e) /\
  (last = 0 \/ u32 (now - last) = 0 -> dt_sec now last = fdiv (of_int LoopDtMs) f1000).
Proof.
  split; [apply dt_sec_positive |].
  intros H. unfold dt_sec.
  assert (E : u32 (now - (if last =? 0 then now else last)) = 0).
  { destruct (Z.eqb_spec last 0) as [-> | Hne].
    - rewrite Z.sub_diag. reflexivity.
    - destruct H; [contradiction | assumption]. }
  rewrite E. reflexivity.
Qed.

Lemma time_step_guarded_witness :
  u32 (5000 - 5000) = 0 /\ dt_sec 5000 5000 = fdiv (of_int LoopDtMs) f1000.
Proof.
  split; [reflexivity |].
  apply (proj2 (time_step_guarded 5000 5000)). right. reflexivity.
Defined.

(** X16. With numbers for gains the integral is bounded for good: in every
    state reached without a NaN integral gain ever being requested, the
    stored integral gain is finite and [|IntUs| <= IntegralMaxUs]. *)
Theorem integral_stays_bounded (s : state) :
  reachable_numeric s ->
  is_finite (KiUsPerCountSec (tuning s)) = true /\
  abs_le (IntUs (pid s)) IntegralMaxUs = true.
Proof. exact (integral_bounded_numeric s). Qed.

Lemma integral_stays_bounded_witness :
  reachable_numeric (loop None (nominal 1400 700) started) /\
  abs_le (IntUs (pid (loop None (nominal 1400 700) started))) IntegralMaxUs = true.
Proof.
  assert (Hr : reachable_numeric (loop None (nominal 1400 700) started))
    by (repeat constructor).
  split; [exact Hr |]. exact (proj2 (integral_stays_bounded _ Hr)).
Defined.

Lemma constrain_between (v lo hi : float) :
  is_nan v = false -> fle lo hi = true -> fle lo lo = true -> fle hi hi = true ->
  fle lo (constrain v lo hi) = true /\ fle (constrain v lo hi) hi = true.
Proof.
  intros Hv Hlh Hll Hhh.
  pose proof (fle_not_nan_l _ _ Hlh) as Hlo. pose proof (fle_not_nan_r _ _ Hlh) as Hhi.
  unfold constrain. destruct (flt v lo) eqn:E1; [auto |].
  destruct (fgt v hi) eqn:E2; [auto |].
  split; [apply not_flt_fle | apply not_fgt_fle]; assumption.
Qed.

(** X17. Numbers are always clamped into the bounds: the initial gains are
    inside their bounds, and a [/set] request none of whose gains is NaN
    leaves every gain inside its bounds (0 to 5 for Kp, 0 to 1 for Ki,
    0 to 2 for Kd). *)
Theorem numeric_gains_stay_in_bounds (a : SetArgs) (s : state) :
  gains_in_bounds (tuning s) ->
  numeric_gains a ->
  gains_in_bounds (tuning boot) /\ gains_in_bounds (tuning (snd (HandleSet a s))).
Proof.
  intros Hs Ha. split; [intros []; split; reflexivity |].
  intros g. specialize (Hs g). specialize (Ha g).
  assert (E : gain_stored g (tuning (snd (HandleSet a s)))
              = match gain_arg g a with
                | Some v => constrain v f0 (gain_hi g)
                | None => gain_stored g (tuning s)
                end) by (destruct g; reflexivity).
  rewrite E. destruct (gain_arg g a) as [v |]; [| exact Hs].
  apply constrain_between; [apply Ha; reflexivity | | |]; destruct g; reflexivity.
Qed.

Lemma numeric_gains_stay_in_bounds_witness :
  let a := {| arg_kp := Some (of_int 9); arg_ki := Some (S754_infinity true);
              arg_kd := None; arg_invert := None |} in
  gains_in_bounds (tuning (setup boot)) /\ numeric_gains a /\
  gains_in_bounds (tuning (snd (HandleSet a (setup boot)))).
Proof.
  cbv zeta.
  assert (H0 : gains_in_bounds (tuning (setup boot)))
    by (intros []; split; reflexivity).
  assert (Ha : numeric_gains {| arg_kp := Some (of_int 9);
                                arg_ki := Some (S754_infinity true);
                                arg_kd := None; arg_invert := None |}).
  { intros [] v Hv; cbn in Hv; inversion Hv; reflexivity. }
  split; [exact H0 |]. split; [exact Ha |].
  exact (proj2 (numeric_gains_stay_in_bounds _ (setup boot) H0 Ha)).
Defined.

(** * The serial-only sketch *)

Lemma slew_pair_symmetric (d : Z) (e : Esc) :
  cmds_in_range e ->
  Z.abs d <= DeltaMaxUs ->
  CmdUs1 e + CmdUs2 e = 2 * BaseUs ->
  let t1 := ClampInt (i32 (BaseUs + d)) PulseMinUs PulseMaxUs in
  let t2 := ClampInt (i32 (BaseUs - d)) PulseMinUs PulseMaxUs in
  t1 + t2 = 2 * BaseUs /\
  slew_toward t1 (CmdUs1 e) + slew_toward t2 (CmdUs2 e) = 2 * BaseUs.
Proof.
  intros [H1 H2] Hd Hsum. cbv zeta.
  assert (T1 : ClampInt (i32 (BaseUs + d)) PulseMinUs PulseMaxUs = BaseUs + d).
  { unfold BaseUs, DeltaMaxUs, PulseMinUs, PulseMaxUs in *.
    rewrite i32_small by lia. apply ClampInt_spec; lia. }
  assert (T2 : ClampInt (i32 (BaseUs - d)) PulseMinUs PulseMaxUs = BaseUs - d).
  { unfold BaseUs, DeltaMaxUs, PulseMinUs, PulseMaxUs in *.
    rewrite i32_small by lia. apply ClampInt_spec; lia. }
  rewrite T1, T2. split; [lia |].
  rewrite !slew_toward_eq by
    (unfold BaseUs, DeltaMaxUs, PulseMinUs, PulseMaxUs in *; lia).
  replace (BaseUs - d - CmdUs2 e) with (- (BaseUs + d - CmdUs1 e)) by lia.
  rewrite ClampInt_opp by (unfold SlewStepUs; lia). lia.
Qed.

Lemma sa_setup_cmds (now : Z) :
  CmdUs1 (Standalone.esc (Standalone.setup now Standalone.boot)) = BaseUs /\
  CmdUs2 (Standalone.esc (Standalone.setup now Standalone.boot)) = BaseUs.
Proof.
  unfold Standalone.setup. cbn [Standalone.esc]. split; vm_compute; reflexivity.
Qed.

Lemma sa_delta_range (u : float) :
  Z.abs (ClampInt (to_int (roundf u)) (- DeltaMaxUs) DeltaMaxUs) <= DeltaMaxUs.
Proof.
  pose proof (ClampInt_spec (to_int (roundf u)) (- DeltaMaxUs) DeltaMaxUs) as (H & _);
    unfold DeltaMaxUs in *; lia.
Qed.

Lemma sa_loop_cmds (raw_check now raw : Z) (s : Standalone.state) :
  cmds_in_range (Standalone.esc s) ->
  CmdUs1 (Standalone.esc s) + CmdUs2 (Standalone.esc s) = 2 * BaseUs ->
  let s' := Standalone.loop raw_check now raw s in
  cmds_in_range (Standalone.esc s') /\
  CmdUs1 (Standalone.esc s') + CmdUs2 (Standalone.esc s') = 2 * BaseUs /\
  Z.abs (CmdUs1 (Standalone.esc s') - CmdUs1 (Standalone.esc s)) <= SlewStepUs /\
  Z.abs (CmdUs2 (Standalone.esc s') - CmdUs2 (Standalone.esc s)) <= SlewStepUs.
Proof.
  intros Hr Hsum. cbv zeta. unfold Standalone.loop.
  destruct ((raw_check <? 300) || (raw_check >? 900)).
  - unfold Standalone.with_esc, write_escs. cbn [Standalone.esc CmdUs1 CmdUs2].
    rewrite !Z.sub_diag. unfold SlewStepUs. simpl Z.abs. repeat split; try apply Hr; lia.
  - unfold Standalone.ControlStepPID. cbv zeta.
    cbn [Standalone.esc]. unfold write_escs, set_cmds. cbn [CmdUs1 CmdUs2].
    set (d := ClampInt (to_int (roundf _)) (- DeltaMaxUs) DeltaMaxUs).
    assert (Hd : Z.abs d <= DeltaMaxUs) by apply sa_delta_range.
    pose proof (slew_pair_symmetric d (Standalone.esc s) Hr Hd Hsum) as [_ Hs].
    cbv zeta in Hs.
    destruct Hr as [H1 H2].
    pose proof (slew_toward_spec _ (CmdUs1 (Standalone.esc s))
                  (ClampInt_pulse (i32 (BaseUs + d))) H1) as (A1 & B1 & _).
    pose proof (slew_toward_spec _ (CmdUs2 (Standalone.esc s))
                  (ClampInt_pulse (i32 (BaseUs - d))) H2) as (A2 & B2 & _).
    unfold cmds_in_range. cbn [CmdUs1 CmdUs2].
    split; [split; assumption |]. split; [exact Hs |]. split; assumption.
Qed.

Lemma sa_reachable_cmds (s : Standalone.state) :
  sa_reachable s ->
  cmds_in_range (Standalone.esc s) /\
  CmdUs1 (Standalone.esc s) + CmdUs2 (Standalone.esc s) = 2 * BaseUs.
Proof.
  induction 1 as [now | raw_check now raw s Hs [IH1 IH2]].
  - destruct (sa_setup_cmds now) as [E1 E2]. unfold cmds_in_range.
    rewrite E1, E2. unfold BaseUs, PulseMinUs, PulseMaxUs. lia.
  - pose proof (sa_loop_cmds raw_check now raw s IH1 IH2) as H. cbv zeta in H. tauto.
Qed.

(** X18. In the serial-only sketch the two commands are symmetric for good:
    in every state after [setup] they lie in the pulse range and add up
    to [2*BaseUs] (the differential is clamped as an integer, so this
    holds whatever the floating-point output is). *)
Theorem standalone_commands_symmetric (s : Standalone.state) :
  sa_reachable s ->
  cmds_in_range (Standalone.esc s) /\
  CmdUs1 (Standalone.esc s) + CmdUs2 (Standalone.esc s) = 2 * BaseUs.
Proof. exact (sa_reachable_cmds s). Qed.

Lemma standalone_commands_symmetric_witness :
  let s := Standalone.loop 700 5010 700 (Standalone.setup 5000 Standalone.boot) in
  sa_reachable s /\
  CmdUs1 (Standalone.esc s) + CmdUs2 (Standalone.esc s) = 2 * BaseUs.
Proof.
  cbv zeta.
  assert (Hr : sa_reachable
                 (Standalone.loop 700 5010 700 (Standalone.setup 5000 Standalone.boot)))
    by (repeat constructor).
  split; [exact Hr |]. exact (proj2 (standalone_commands_symmetric _ Hr)).
Defined.

(** X19. In the serial-only sketch every iteration of [loop] is
    slew-limited: each command variable moves by at most [SlewStepUs],
    the out-of-range iteration included (it writes the safe MIN to the
    ESCs but leaves the command variables alone). *)
Theorem standalone_slew_every_iteration
    (raw_check now raw : Z) (s : Standalone.state) :
  sa_reachable s ->
  let s' := Standalone.loop raw_check now raw s in
  Z.abs (CmdUs1 (Standalone.esc s') - CmdUs1 (Standalone.esc s)) <= SlewStepUs /\
  Z.abs (CmdUs2 (Standalone.esc s') - CmdUs2 (Standalone.esc s)) <= SlewStepUs.
Proof.
  intros Hs. destruct (sa_reachable_cmds s Hs) as [H1 H2].
  pose proof (sa_loop_cmds raw_check now raw s H1 H2) as H. cbv zeta in H. cbv zeta. tauto.
Qed.

Lemma standalone_slew_every_iteration_witness :
  let s := Standalone.setup 5000 Standalone.boot in
  sa_reachable s /\
  Z.abs (CmdUs1 (Standalone.esc (Standalone.loop 700 5010 1023 s))
         - CmdUs1 (Standalone.esc s)) <= SlewStepUs.
Proof.
  cbv zeta.
  assert (Hr : sa_reachable (Standalone.setup 5000 Standalone.boot)) by constructor.
  split; [exact Hr |].
  exact (proj1 (standalone_slew_every_iteration 700 5010 1023 _ Hr)).
Defined.

(** X20. The range check of the serial-only sketch: an out-of-range first
    reading writes the safe MIN to both ESCs and touches nothing else
    (commands, filter, integral, derivative and timestamp stay), so the
    pulse of the next in-range iteration is within [SlewStepUs] of the
    commands held before, not of the MIN just written. *)
Theorem standalone_range_check
    (raw_check now raw raw_check' now' raw' : Z) (s : Standalone.state) :
  sa_reachable s ->
  (raw_check <? 300) || (raw_check >? 900) = true ->
  (raw_check' <? 300) || (raw_check' >? 900) = false ->
  let s1 := Standalone.loop raw_check now raw s in
  let s2 := Standalone.loop raw_check' now' raw' s1 in
  s1 = Standalone.with_esc (write_escs PulseMinUs PulseMinUs (Standalone.esc s)) s /\
  CmdUs1 (Standalone.esc s1) = CmdUs1 (Standalone.esc s) /\
  CmdUs2 (Standalone.esc s1) = CmdUs2 (Standalone.esc s) /\
  exists p1 p2,
    EscOut (Standalone.esc s2) = (p1, p2) :: (PulseMinUs, PulseMinUs)
                                   :: EscOut (Standalone.esc s) /\
    Z.abs (p1 - CmdUs1 (Standalone.esc s)) <= SlewStepUs /\
    Z.abs (p2 - CmdUs2 (Standalone.esc s)) <= SlewStepUs.
Proof.
  intros Hs Hout Hin. cbv zeta.
  assert (E1 : Standalone.loop raw_check now raw s
               = Standalone.with_esc (write_escs PulseMinUs PulseMinUs (Standalone.esc s)) s)
    by (unfold Standalone.loop; now rewrite Hout).
  rewrite E1. split; [reflexivity |]. split; [reflexivity |]. split; [reflexivity |].
  assert (Hr1 : sa_reachable (Standalone.loop raw_check now raw s)) by now constructor.
  rewrite E1 in Hr1.
  destruct (sa_reachable_cmds _ Hr1) as [C1 C2].
  pose proof (sa_loop_cmds raw_check' now' raw' _ C1 C2) as Hsl.
  cbv zeta in Hsl. destruct Hsl as (_ & _ & A & B). revert A B.
  unfold Standalone.loop. rewrite Hin.
  unfold Standalone.ControlStepPID. cbv zeta.
  cbn [Standalone.esc Standalone.with_esc CmdUs1 CmdUs2 EscOut write_escs set_cmds].
  intros A B. eexists. eexists. split; [reflexivity |]. split; [exact A | exact B].
Qed.

Lemma standalone_range_check_witness :
  let s := Standalone.setup 5000 Standalone.boot in
  sa_reachable s /\
  ((200 <? 300) || (200 >? 900) = true) /\
  ((700 <? 300) || (700 >? 900) = false) /\
  CmdUs1 (Standalone.esc (Standalone.loop 200 5010 200 s)) = CmdUs1 (Standalone.esc s).
Proof.
  cbv zeta.
  assert (Hr : sa_reachable (Standalone.setup 5000 Standalone.boot)) by constructor.
  pose proof (standalone_range_check 200 5010 200 700 5220 700 _ Hr eq_refl eq_refl) as H.
  cbv zeta in H. destruct H as (_ & H & _).
  split; [exact Hr |]. split; [reflexivity |]. split; [reflexivity | exact H].
Defined.

(** The time step of the serial-only sketch is a positive finite number. *)
Lemma sa_dt_sec_positive (now last : Z) :
  exists (m : positive) (e : Z), Standalone.dt_sec now last = S754_finite false m e.
Proof.
  unfold Standalone.dt_sec.
  assert (Hc : exists m e, f0_001 = S754_finite false m e) by (vm_compute; eauto).
  assert (Hk : forall d : float,
             (exists s, d = S754_zero s) \/ (exists m e, d = S754_finite false m e) ->
             exists m e, (if flt d f0_001 then f0_001 else d) = S754_finite false m e).
  { intros d [[s ->] | (m & e & ->)].
    - destruct s; exact Hc.
    - destruct (flt _ f0_001); [exact Hc | eauto]. }
  apply Hk.
  destruct (last =? 0); [right; vm_compute; eauto |].
  pose proof (of_int_u32_shape (now - last)) as H.
  destruct (of_int (u32 (now - last))) as [s | s | | s m e]; try contradiction.
  - left. exists (xorb s false). reflexivity.
  - destruct H as (-> & Hm & He).
    pose proof (fmul_finite_overflow false false m 8589935 e (-33)) as Hd.
    change (S754_finite false 8589935 (-33)) with f0_001 in Hd.
    destruct (fmul (S754_finite false m e) f0_001) as [s' | s' | | s' m' e'].
    + left. eauto.
    + exfalso. unfold emax, prec in *. simpl in Hd. lia.
    + contradiction.
    + right. subst s'. eauto.
Qed.

Lemma sa_error_of_range (pf : Z) : -2147483648 <= Standalone.error_of pf < 2147483648.
Proof. unfold Standalone.error_of. destruct Standalone.InvertDirection; apply i32_range. Qed.

Lemma sa_ControlStepPID_integral (now raw : Z) (s : Standalone.state) :
  abs_le (Standalone.IntUs s) Standalone.IntegralMaxUs = true ->
  abs_le (Standalone.IntUs (Standalone.ControlStepPID now raw s)) Standalone.IntegralMaxUs
  = true.
Proof.
  intros Hb. unfold Standalone.ControlStepPID. cbv zeta. cbn [Standalone.IntUs].
  destruct (Standalone.allowIntegrate _); [| exact Hb].
  apply (clamp_sym_abs_le _ Standalone.IntegralMaxUs); [now left |].
  apply fadd_finite_not_nan.
  - revert Hb. unfold abs_le.
    change (of_int Standalone.IntegralMaxUs) with (S754_finite false 10485760 (-17)).
    destruct (Standalone.IntUs s) as [? | ? | |]; simpl; auto; discriminate.
  - destruct (sa_dt_sec_positive now (Standalone.LastTsMs s)) as (m & e & ->).
    apply fmul_nonzero_not_nan, fmul_finite_not_nan; [reflexivity |].
    apply of_int_finite.
    pose proof (sa_error_of_range (Standalone.filter_pot raw (Standalone.PotFiltered s))).
    change (2 ^ 64) with 18446744073709551616. lia.
Qed.

(** X21. In the serial-only sketch, whose gains are fixed numbers, the
    integral is bounded without condition: [|IntUs| <= IntegralMaxUs] in
    every state after [setup], whatever the clock and the ADC give. *)
Theorem standalone_integral_bounded (s : Standalone.state) :
  sa_reachable s ->
  abs_le (Standalone.IntUs s) Standalone.IntegralMaxUs = true.
Proof.
  induction 1 as [now | raw_check now raw s Hs IH]; [reflexivity |].
  unfold Standalone.loop. destruct ((raw_check <? 300) || (raw_check >? 900)).
  - exact IH.
  - apply sa_ControlStepPID_integral, IH.
Qed.

Lemma standalone_integral_bounded_witness :
  let s := Standalone.loop 700 5010 700 (Standalone.setup 5000 Standalone.boot) in
  sa_reachable s /\ abs_le (Standalone.IntUs s) Standalone.IntegralMaxUs = true.
Proof.
  cbv zeta.
  assert (Hr : sa_reachable
                 (Standalone.loop 700 5010 700 (Standalone.setup 5000 Standalone.boot)))
    by (repeat constructor).
  split; [exact Hr |]. exact (standalone_integral_bounded _ Hr).
Defined.

(** * More on the slew to a target and on the filters *)

Lemma slew_steps_step (t c : Z) :
  PulseMinUs <= t <= PulseMaxUs ->
  PulseMinUs <= c <= PulseMaxUs ->
  c <> t ->
  slew_steps t (slew_toward t c) = slew_steps t c - 1.
Proof.
  intros Ht Hc Hne. rewrite slew_toward_eq by assumption.
  pose proof (ClampInt_spec (t - c) (- SlewStepUs) SlewStepUs) as (Hr & Hi & Hl & Hh);
    [unfold SlewStepUs; lia |].
  unfold slew_steps, SlewStepUs in *.
  set (k := ClampInt (t - c) (- (4)) 4) in *.
  assert (Hk : Z.abs (t - (c + k)) = Z.abs (t - c) - 4 \/
               (Z.abs (t - (c + k)) = 0 /\ 0 < Z.abs (t - c) <= 4)) by lia.
  generalize dependent (Z.abs (t - (c + k))). generalize dependent (Z.abs (t - c)).
  intros b a Hk. Z.div_mod_to_equations. lia.
Qed.

Lemma slew_steps_zero (t c : Z) : slew_steps t c = 0 <-> c = t.
Proof.
  unfold slew_steps, SlewStepUs. split; intros H.
  - Z.div_mod_to_equations. lia.
  - subst. rewrite Z.sub_diag. reflexivity.
Qed.

Lemma slew_steps_nonneg (t c : Z) : 0 <= slew_steps t c.
Proof. unfold slew_steps, SlewStepUs. Z.div_mod_to_equations. lia. Qed.

Lemma slew_loop_count (t1 t2 : Z) :
  PulseMinUs <= t1 <= PulseMaxUs ->
  PulseMinUs <= t2 <= PulseMaxUs ->
  forall (fuel : nat) (e : Esc),
    cmds_in_range e ->
    (Z.to_nat (Z.abs (t1 - CmdUs1 e) + Z.abs (t2 - CmdUs2 e)) < fuel)%nat ->
    exists l : list (Z * Z),
      EscOut (slew_loop fuel t1 t2 e) = rev l ++ EscOut e /\
      Z.of_nat (length l)
      = Z.max (slew_steps t1 (CmdUs1 e)) (slew_steps t2 (CmdUs2 e)) + 1.
Proof.
  intros Ht1 Ht2. induction fuel as [| fuel IH]; intros e He Hfuel; [lia |].
  cbn [slew_loop]. pose proof (slew_iter_spec t1 t2 e Ht1 Ht2 He) as H. cbv zeta in H.
  assert (Hc1 : CmdUs1 (fst (slew_iter t1 t2 e))
                = if CmdUs1 e =? t1 then CmdUs1 e else slew_toward t1 (CmdUs1 e))
    by reflexivity.
  assert (Hc2 : CmdUs2 (fst (slew_iter t1 t2 e))
                = if CmdUs2 e =? t2 then CmdUs2 e else slew_toward t2 (CmdUs2 e))
    by reflexivity.
  assert (Hdn : snd (slew_iter t1 t2 e) = (CmdUs1 e =? t1) && (CmdUs2 e =? t2))
    by reflexivity.
  destruct (slew_iter t1 t2 e) as [e' done]. cbn [fst snd] in *.
  destruct H as (Hr & Hout & _ & _ & _ & Hmore).
  pose proof (slew_steps_nonneg t1 (CmdUs1 e)) as N1.
  pose proof (slew_steps_nonneg t2 (CmdUs2 e)) as N2.
  destruct He as [He1 He2].
  destruct done.
  - symmetry in Hdn. apply andb_prop in Hdn as [D1 D2].
    apply Z.eqb_eq in D1, D2.
    exists [(CmdUs1 e', CmdUs2 e')]. split; [rewrite Hout; reflexivity |].
    rewrite (proj2 (slew_steps_zero t1 (CmdUs1 e)) D1).
    rewrite (proj2 (slew_steps_zero t2 (CmdUs2 e)) D2). reflexivity.
  - specialize (Hmore eq_refl).
    destruct (IH e' Hr ltac:(lia)) as (l & Hl & Hlen).
    exists ((CmdUs1 e', CmdUs2 e') :: l). split.
    + cbn [rev]. rewrite Hl, Hout, <- app_assoc. reflexivity.
    + cbn [length]. rewrite Nat2Z.inj_succ, Hlen, Hc1, Hc2.
      pose proof (slew_steps_zero t1 (CmdUs1 e)) as Z1.
      pose proof (slew_steps_zero t2 (CmdUs2 e)) as Z2.
      destruct (Z.eqb_spec (CmdUs1 e) t1) as [E1 | E1],
               (Z.eqb_spec (CmdUs2 e) t2) as [E2 | E2];
        try discriminate Hdn;
        rewrite ?(slew_steps_step t1 (CmdUs1 e)) by assumption;
        rewrite ?(slew_steps_step t2 (CmdUs2 e)) by assumption;
        try rewrite (proj2 Z1 E1); try rewrite (proj2 Z2 E2);
        try (assert (slew_steps t1 (CmdUs1 e) <> 0) by tauto);
        try (assert (slew_steps t2 (CmdUs2 e) <> 0) by tauto); lia.
Qed.

(** X22. How long [SlewBothTo] blocks: from commands in the pulse range it
    ends with both commands at the targets (clamped to the pulse range)
    after writing exactly [max n1 n2 + 1] pulse pairs, [n1] and [n2] being
    the numbers of [SlewStepUs] moves each channel needs.  The start from
    MIN to [BaseUs] writes 39 pairs. *)
Theorem slew_to_target_count (target1 target2 : Z) (e : Esc) :
  cmds_in_range e ->
  let t1 := ClampInt target1 PulseMinUs PulseMaxUs in
  let t2 := ClampInt target2 PulseMinUs PulseMaxUs in
  CmdUs1 (SlewBothTo_esc target1 target2 e) = t1 /\
  CmdUs2 (SlewBothTo_esc target1 target2 e) = t2 /\
  exists l : list (Z * Z),
    EscOut (SlewBothTo_esc target1 target2 e) = rev l ++ EscOut e /\
    Z.of_nat (length l)
    = Z.max (slew_steps t1 (CmdUs1 e)) (slew_steps t2 (CmdUs2 e)) + 1.
Proof.
  intros He. cbv zeta.
  destruct (SlewBothTo_esc_spec target1 target2 e He) as (l0 & _ & _ & _ & E1 & E2).
  split; [exact E1 |]. split; [exact E2 |].
  unfold SlewBothTo_esc. apply slew_loop_count; auto using ClampInt_pulse.
Qed.

Lemma slew_to_target_count_witness :
  cmds_in_range (esc (setup boot)) /\
  exists l : list (Z * Z),
    EscOut (SlewBothTo_esc BaseUs BaseUs (esc (setup boot)))
    = rev l ++ EscOut (esc (setup boot)) /\
    Z.of_nat (length l) = 39.
Proof.
  assert (Hr : cmds_in_range (esc (setup boot)))
    by exact (proj1 (reachable_cmds _ reach_setup)).
  split; [exact Hr |].
  destruct (slew_to_target_count BaseUs BaseUs (esc (setup boot)) Hr)
    as (_ & _ & l & H1 & H2).
  exists l. split; [exact H1 |]. rewrite H2. vm_compute. reflexivity.
Defined.

(** X23. The derivative is taken on the filtered measurement: in every
    reachable state the function-static [lastY] equals [PotFiltered], so
    the step's [dY] is the change of the filtered measurement since the
    previous in-range control step (of an earlier run, if need be). *)
Theorem lastY_tracks_filter (s : state) : reachable s -> lastY (pid s) = PotFiltered (pid s).
Proof.
  induction 1 as [| q r s Hs IH]; [reflexivity |].
  unfold loop. destruct (ExperimentRunning (experiment s)); simpl negb; cbv iota.
  - unfold running_step.
    assert (H1 : lastY (pid (ControlStepPID (adc_ctrl r) (ms_ctrl r) s))
                 = PotFiltered (pid (ControlStepPID (adc_ctrl r) (ms_ctrl r) s))).
    { unfold ControlStepPID. destruct (out_of_range _); [exact IH | reflexivity]. }
    destruct (run_elapsed _ _).
    + unfold stop_run, HoldEscMin, with_experiment, with_esc. cbn [pid].
      rewrite TrySample_pid. exact H1.
    + rewrite TrySample_pid. exact H1.
  - unfold idle_step, HoldEscMin, with_esc. cbn [pid].
    destruct q as [[| adc now | a | t0 t1 t2 |] |]; cbn [ServiceWeb dispatch snd];
      try exact IH.
    unfold HandleStart. destruct (ExperimentRunning (experiment s)); [exact IH |].
    cbn. exact IH.
Qed.

Lemma lastY_tracks_filter_witness :
  reachable nominal_run /\ lastY (pid nominal_run) = 660.
Proof.
  assert (Hr : reachable nominal_run)
    by exact (reachable_run_loop _ _ reachable_started).
  split; [exact Hr |]. rewrite (lastY_tracks_filter _ Hr). vm_compute. reflexivity.
Defined.

(** X24. The filter seeds itself from the first measurement: an in-range
    control step that finds [PotFiltered] at 0 leaves it, and [lastY]
    with it, equal to the raw measurement. *)
Theorem filter_seeds_from_measurement (raw now : Z) (s : state) :
  out_of_range raw = false ->
  PotFiltered (pid s) = 0 ->
  PotFiltered (pid (ControlStepPID raw now s)) = raw /\
  lastY (pid (ControlStepPID raw now s)) = raw.
Proof.
  intros Hin H0. rewrite ControlStepPID_in_range by assumption.
  unfold with_esc, with_pid, pid_terms. cbn [pid fst PotFiltered lastY].
  assert (E : filter_pot raw (PotFiltered (pid s)) = raw).
  { rewrite H0.
    assert (E0 : filter_pot raw 0 = filter_pot raw raw).
    { unfold filter_pot. cbn [Z.eqb]. destruct (raw =? 0) eqn:E; [| reflexivity].
      apply Z.eqb_eq in E. now subst. }
    rewrite E0. apply out_of_range_false in Hin.
    exact (filter_pot_fixed raw Hin). }
  rewrite E. split; reflexivity.
Qed.

Lemma filter_seeds_from_measurement_witness :
  out_of_range 700 = false /\ PotFiltered (pid started) = 0 /\
  PotFiltered (pid (ControlStepPID 700 1400 started)) = 700.
Proof.
  split; [reflexivity |]. split; [reflexivity |].
  exact (proj1 (filter_seeds_from_measurement 700 1400 started eq_refl eq_refl)).
Defined.

Lemma sa_dead_band_checked : forallb sa_dead_band_ok (rng 0 1024) = true.
Proof. vm_compute. reflexivity. Qed.

(** X25. The rounding filter of the serial-only sketch has a dead band:
    for a filtered value in the ADC range [0, 1023] (checked on all of
    them), a measurement within 2 counts of it leaves it unchanged, and
    one 3 counts above or below moves it by one count. *)
Theorem standalone_filter_dead_band (pf k : Z) :
  0 <= pf <= 1023 ->
  (-2 <= k <= 2 -> Standalone.filter_pot (pf + k) pf = pf) /\
  Standalone.filter_pot (pf + 3) pf = pf + 1 /\
  Standalone.filter_pot (pf - 3) pf = pf - 1.
Proof.
  intros Hpf. pose proof sa_dead_band_checked as H.
  rewrite forallb_forall in H. specialize (H pf (rng_In 0 1024 pf ltac:(lia))).
  unfold sa_dead_band_ok in H.
  apply andb_prop in H as [H H3]. apply andb_prop in H as [H1 H2].
  apply Z.eqb_eq in H2, H3. split; [| split; assumption].
  intros Hk. rewrite forallb_forall in H1.
  apply Z.eqb_eq. apply (H1 k). apply rng_In. lia.
Qed.

Lemma standalone_filter_dead_band_witness :
  0 <= 660 <= 1023 /\ -2 <= 2 <= 2 /\ Standalone.filter_pot (660 + 2) 660 = 660.
Proof.
  assert (H1 : 0 <= 660 <= 1023) by lia. assert (H2 : -2 <= 2 <= 2) by lia.
  split; [exact H1 |]. split; [exact H2 |].
  exact (proj1 (standalone_filter_dead_band 660 2 H1) H2).
Defined.
